(** * Air Crashes Analysis: the data preparation and query engine of [app.py]

    A shallow embedding of the pandas pipeline of [app.py]: the data frame is
    a list of named columns, every pandas call the script makes is a function
    of the same name over that representation, and the script's own
    statements ([preprocess_data], the sidebar choices, [filtered_df], the
    metrics and the tables) are written with those functions in the order
    the script runs them.  The calls are those of pandas 2, the last to
    accept [fillna(method='ffill')]. *)

From Stdlib Require Import String Ascii.
From Stdlib Require Import List ZArith QArith Qround Bool Arith Lia Lqa Permutation Sorted.
From Stdlib Require Floats Uint63.
Import ListNotations.

Local Open Scope Z_scope.

(** ** Data model *)

(** A non-null value held by a cell.  [read_csv] yields numbers, which the
    record model takes integral (year, month, day, counts), and text;
    [to_datetime] yields dates.  [VStr] stands for text that does not read as
    a number: numeric text is a number after [read_csv]. *)
Inductive value : Type :=
  | VNum (z : Z)
  | VStr (s : string)
  | VDate (y m d : Z).

(** A cell is null ([NaN], [NaT], [None]) or holds a value. *)
Definition cell : Type := option value.

(** A column, top to bottom in record order. *)
Definition Series : Type := list cell.

(** The frame: its columns, left to right, each under its label. *)
Definition DataFrame : Type := list (string * Series).

(** What a pandas call or a Python operator may raise in this script. *)
Inductive exn : Type :=
  | KeyError (label : string)
  | TypeError
  | ZeroDivisionError.

Inductive result (A : Type) : Type :=
  | Ok (a : A)
  | Raise (e : exn).
Arguments Ok {A} a.
Arguments Raise {A} e.

Definition bind {A B : Type} (r : result A) (k : A -> result B) : result B :=
  match r with
  | Ok a => k a
  | Raise e => Raise e
  end.

Notation "x <- r ;; k" := (bind r (fun x => k))
  (at level 61, r at next level, right associativity).

Fixpoint mapM {A B : Type} (f : A -> result B) (l : list A) : result (list B) :=
  match l with
  | [] => Ok []
  | a :: l' => b <- f a ;; bs <- mapM f l' ;; Ok (b :: bs)
  end.

Definition value_eq_dec (a b : value) : {a = b} + {a <> b}.
Proof.
  decide equality; (apply Z.eq_dec || apply string_dec).
Defined.

Arguments value_eq_dec : simpl never.

Definition value_eqb (a b : value) : bool :=
  if value_eq_dec a b then true else false.

(** Column labels the script names. *)
Definition Year : string := "Year".
Definition Month : string := "Month".
Definition Day : string := "Day".
Definition Date : string := "Date".
Definition Operator : string := "Operator".
Definition Country : string := "Country".
Definition Location : string := "Location".
Definition Fatalities : string := "Fatalities".
Definition Decade : string := "Decade".

(** The sentinel of the two select boxes. *)
Definition All : value := VStr "All".

(** ** The pandas calls of the script *)

(** [label in df.columns] *)
Definition has_column (label : string) (df : DataFrame) : bool :=
  existsb (fun c => String.eqb label (fst c)) df.

(** The column under a label, the first one of that label. *)
Fixpoint get_col (label : string) (df : DataFrame) : option Series :=
  match df with
  | [] => None
  | (n, s) :: df' => if String.eqb label n then Some s else get_col label df'
  end.

(** [df[label]]: a missing label raises [KeyError]. *)
Definition getitem (label : string) (df : DataFrame) : result Series :=
  match get_col label df with
  | Some s => Ok s
  | None => Raise (KeyError label)
  end.

(** [df[label] = s]: overwrites the column in place when the label exists,
    appends a new last column otherwise. *)
Fixpoint setitem (label : string) (s : Series) (df : DataFrame) : DataFrame :=
  match df with
  | [] => [(label, s)]
  | (n, s0) :: df' =>
      if String.eqb label n then (n, s) :: df' else (n, s0) :: setitem label s df'
  end.

(** [len(df)] *)
Definition len (df : DataFrame) : nat :=
  match df with
  | [] => 0%nat
  | (_, s) :: _ => length s
  end.

(** Calendar. *)
Definition is_leap (y : Z) : bool :=
  ((y mod 4 =? 0) && negb (y mod 100 =? 0)) || (y mod 400 =? 0).

Definition days_in_month (y m : Z) : Z :=
  if (m =? 2) then (if is_leap y then 29 else 28)
  else if (m =? 4) || (m =? 6) || (m =? 9) || (m =? 11) then 30
  else 31.

Definition valid_calendar_date (y m d : Z) : bool :=
  (1 <=? m) && (m <=? 12) && (1 <=? d) && (d <=? days_in_month y m).

(** Lexicographic order on (year, month, day). *)
Definition ymd_leb (a b : Z * Z * Z) : bool :=
  let '(y1, m1, d1) := a in
  let '(y2, m2, d2) := b in
  (y1 <? y2) || ((y1 =? y2) && ((m1 <? m2) || ((m1 =? m2) && (d1 <=? d2)))).

(** The days a nanosecond [Timestamp] can hold at midnight:
    1677-09-22 to 2262-04-11. *)
Definition in_timestamp_bounds (y m d : Z) : bool :=
  ymd_leb (1677, 9, 22) (y, m, d) && ymd_leb (y, m, d) (2262, 4, 11).

(** The fields that the format [%Y%m%d] reads in the decimal digits of a
    packed number, as [strptime] does: four digits of year, then a month
    ([1[0-2]|0[1-9]|[1-9]]) and a day ([3[01]|[12]\d|0[1-9]|[1-9]]), which
    have to use up the digits.  Eight digits read as two of month and two of
    day, and are handed on as they stand: a month 13 or a day 32, which the
    format does not read, is refused by the calendar below all the same.
    Seven digits read as two of month and one of day or, failing that, as
    one of month and two of day; six digits as one of each.  Any other
    number of digits, or a sign, is not read. *)
Definition strptime_Ymd (v : Z) : option (Z * Z * Z) :=
  if (10000000 <=? v) && (v <=? 99999999) then
    Some (v / 10000, (v / 100) mod 100, v mod 100)
  else if (1000000 <=? v) && (v <=? 9999999) then
    let a := (v / 100) mod 10 in
    let b := (v / 10) mod 10 in
    let c := v mod 10 in
    if (((a =? 1) && (b <=? 2)) || ((a =? 0) && (1 <=? b))) && (1 <=? c)
    then Some (v / 1000, a * 10 + b, c)
    else if (1 <=? a) && (1 <=? b * 10 + c) && (b * 10 + c <=? 31)
    then Some (v / 1000, a, b * 10 + c)
    else None
  else if (100000 <=? v) && (v <=? 999999) then
    let a := (v / 10) mod 10 in
    let b := v mod 10 in
    if (1 <=? a) && (1 <=? b) then Some (v / 100, a, b) else None
  else None.

(** [pd.to_datetime(values, format='%Y%m%d', errors='coerce')] on one packed
    number: digits that the format does not read, that spell no calendar
    date, or that spell a date out of bounds, are coerced to [NaT]. *)
Definition parse_yyyymmdd (v : Z) : cell :=
  match strptime_Ymd v with
  | Some (y, m, d) =>
      if valid_calendar_date y m d && in_timestamp_bounds y m d
      then Some (VDate y m d) else None
  | None => None
  end.

(** One row of [pd.to_datetime(df[['Year', 'Month', 'Day']], errors='coerce')]:
    the three fields are read as numbers, anything else being coerced to
    [NaN]; pandas packs them into [year * 10000 + month * 100 + day] and
    parses that number, so a month or a day of more than two digits spills
    into the field on its left.  A null field gives [NaT]. *)
Definition assemble_date (y m d : cell) : cell :=
  match y, m, d with
  | Some (VNum y), Some (VNum m), Some (VNum d) =>
      parse_yyyymmdd (y * 10000 + m * 100 + d)
  | _, _, _ => None
  end.

Fixpoint to_datetime_coerce (ys ms ds : Series) : Series :=
  match ys, ms, ds with
  | y :: ys', m :: ms', d :: ds' => assemble_date y m d :: to_datetime_coerce ys' ms' ds'
  | _, _, _ => []
  end.

(** [Series.ffill]: scan top to bottom carrying the last non-null value. *)
Fixpoint ffill_from (last : cell) (s : Series) : Series :=
  match s with
  | [] => []
  | Some v :: s' => Some v :: ffill_from (Some v) s'
  | None :: s' => last :: ffill_from last s'
  end.

Definition ffill (s : Series) : Series := ffill_from None s.

(** [df.fillna(method='ffill')]: every column, whatever it holds. *)
Definition fillna_ffill (df : DataFrame) : DataFrame :=
  map (fun c => (fst c, ffill (snd c))) df.

(** ** [preprocess_data] *)

(** The first statement of [preprocess_data]: the [Date] column, when the
    three source columns exist. *)
Definition derive_date (df : DataFrame) : DataFrame :=
  match get_col Year df, get_col Month df, get_col Day df with
  | Some ys, Some ms, Some ds => setitem Date (to_datetime_coerce ys ms ds) df
  | _, _, _ => df
  end.

Definition preprocess_data (df : DataFrame) : DataFrame :=
  fillna_ffill (derive_date df).

(** ** Row selection *)

(** [s >= k] and [s <= k] on one cell: a null compares false, text or a
    date against a number raises. *)
Definition ge_scalar (k : Z) (c : cell) : result bool :=
  match c with
  | None => Ok false
  | Some (VNum z) => Ok (k <=? z)
  | Some _ => Raise TypeError
  end.

Definition le_scalar (k : Z) (c : cell) : result bool :=
  match c with
  | None => Ok false
  | Some (VNum z) => Ok (z <=? k)
  | Some _ => Raise TypeError
  end.

Definition series_ge (s : Series) (k : Z) : result (list bool) := mapM (ge_scalar k) s.
Definition series_le (s : Series) (k : Z) : result (list bool) := mapM (le_scalar k) s.

(** [m1 & m2] *)
Definition mask_and (m1 m2 : list bool) : list bool :=
  map (fun p => fst p && snd p) (combine m1 m2).

(** [s == v]: a null equals nothing. *)
Definition eq_scalar (v : value) (c : cell) : bool :=
  match c with
  | Some w => value_eqb w v
  | None => false
  end.

Definition series_eq (s : Series) (v : value) : list bool := map (eq_scalar v) s.

(** The entries of [l] at which the mask is true, in order. *)
Fixpoint select {A : Type} (mask : list bool) (l : list A) : list A :=
  match mask, l with
  | b :: mask', a :: l' => if b then a :: select mask' l' else select mask' l'
  | _, _ => []
  end.

(** [df[mask]] *)
Definition boolean_index (df : DataFrame) (mask : list bool) : DataFrame :=
  map (fun c => (fst c, select mask (snd c))) df.

(** ** Sidebar *)

(** What the user sets in the three widgets. *)
Record Widgets : Type := {
  slider : Z * Z;
  operator_box : value;
  location_box : value
}.

(** The filter specification the script works with. *)
Record FilterSpec : Type := {
  year_range : Z * Z;
  selected_operator : value;
  selected_location : value
}.

Definition location_col (df : DataFrame) : string :=
  if has_column Country df then Country else Location.

(** Without the column there is no select box and the choice is ['All']. *)
Definition sidebar (df : DataFrame) (w : Widgets) : FilterSpec :=
  {| year_range := slider w;
     selected_operator := if has_column Operator df then operator_box w else All;
     selected_location :=
       if has_column Country df || has_column Location df then location_box w else All |}.

(** ** [filtered_df] *)

Definition filter_years (df : DataFrame) (f : FilterSpec) : result DataFrame :=
  ys <- getitem Year df ;;
  lo <- series_ge ys (fst (year_range f)) ;;
  ys' <- getitem Year df ;;
  hi <- series_le ys' (snd (year_range f)) ;;
  Ok (boolean_index df (mask_and lo hi)).

Definition filter_operator (df : DataFrame) (f : FilterSpec) (view : DataFrame)
  : result DataFrame :=
  if has_column Operator df && negb (value_eqb (selected_operator f) All)
  then ops <- getitem Operator view ;;
       Ok (boolean_index view (series_eq ops (selected_operator f)))
  else Ok view.

Definition filter_location (df : DataFrame) (f : FilterSpec) (view : DataFrame)
  : result DataFrame :=
  if (has_column Country df || has_column Location df)
     && negb (value_eqb (selected_location f) All)
  then locs <- getitem (location_col df) view ;;
       Ok (boolean_index view (series_eq locs (selected_location f)))
  else Ok view.

Definition filtered_df (df : DataFrame) (f : FilterSpec) : result DataFrame :=
  v1 <- filter_years df f ;;
  v2 <- filter_operator df f v1 ;;
  filter_location df f v2.

(** ** Records *)

(** A record: the cells of one row under their labels. *)
Definition record : Type := list (string * cell).

Definition row_at (df : DataFrame) (i : nat) : record :=
  map (fun c => (fst c, nth i (snd c) None)) df.

Definition records (df : DataFrame) : list record :=
  map (row_at df) (seq 0 (len df)).

Fixpoint field (label : string) (r : record) : option cell :=
  match r with
  | [] => None
  | (n, c) :: r' => if String.eqb label n then Some c else field label r'
  end.

(** Every column has the frame's length. *)
Definition rectangular (df : DataFrame) : bool :=
  forallb (fun c => Nat.eqb (length (snd c)) (len df)) df.

Definition is_number (c : cell) : bool :=
  match c with
  | None => true
  | Some (VNum _) => true
  | Some _ => false
  end.

(** The frame has a [Year] column and it holds numbers or nulls. *)
Definition numeric_year (df : DataFrame) : bool :=
  match get_col Year df with
  | Some ys => forallb is_number ys
  | None => false
  end.

(** The constraints of a filter specification, on one record. *)
Definition year_in_range (lo hi : Z) (r : record) : bool :=
  match field Year r with
  | Some (Some (VNum y)) => (lo <=? y) && (y <=? hi)
  | _ => false
  end.

Definition field_is (label : string) (v : value) (r : record) : bool :=
  match field label r with
  | Some (Some w) => value_eqb w v
  | _ => false
  end.

Definition satisfies (loc : string) (f : FilterSpec) (r : record) : bool :=
  year_in_range (fst (year_range f)) (snd (year_range f)) r
  && (value_eqb (selected_operator f) All || field_is Operator (selected_operator f) r)
  && (value_eqb (selected_location f) All || field_is loc (selected_location f) r).

(** ** Counting and sorting *)

Section StableSort.
Context {A : Type} (leb : A -> A -> bool).

(** [x] goes in front of the first entry it is not above. *)
Fixpoint insert_sorted (x : A) (l : list A) : list A :=
  match l with
  | [] => [x]
  | y :: l' => if leb x y then x :: y :: l' else y :: insert_sorted x l'
  end.

(** Ascending, entries that compare equal keeping their order. *)
Definition stable_sort (l : list A) : list A := fold_right insert_sorted [] l.
End StableSort.

(** The table of a counting pass: one more for [v], a new last line when [v]
    was not seen before. *)
Fixpoint incr (v : value) (tbl : list (value * nat)) : list (value * nat) :=
  match tbl with
  | [] => [(v, 1%nat)]
  | (k, c) :: tbl' =>
      if value_eqb k v then (k, S c) :: tbl' else (k, c) :: incr v tbl'
  end.

Definition count_cell (tbl : list (value * nat)) (c : cell) : list (value * nat) :=
  match c with
  | Some v => incr v tbl
  | None => tbl
  end.

(** The counting pass of [value_counts] ([dropna=True]): the distinct
    non-null values in the order they are first met, each with its count. *)
Definition value_counts_arraylike (s : Series) : list (value * nat) :=
  fold_left count_cell s [].

(** [sort_values(ascending=False)] on a labelled series of counts: the lines
    by decreasing count.  pandas sorts the reversed series ascending with
    quicksort and reverses the outcome; quicksort is not stable, so the order
    among lines of equal count is the sort's and nothing in the script fixes
    it.  To compute, one of the orders the sort may give is taken here, the
    one that leaves equal counts in place; what the sort promises, in
    whatever order it leaves them, is [sorted_counts] below, and no statement
    of this file rests on the order among equal counts. *)
Definition sort_values_descending {K : Type} (l : list (K * nat)) : list (K * nat) :=
  rev (stable_sort (fun a b => (snd a <=? snd b)%nat) (rev l)).

(** [s.value_counts()] *)
Definition value_counts (s : Series) : list (value * nat) :=
  sort_values_descending (value_counts_arraylike s).

(** Order of labels: numbers, text, dates, each kind in its own order. *)
Definition value_leb (a b : value) : bool :=
  match a, b with
  | VNum x, VNum y => x <=? y
  | VNum _, _ => true
  | VStr _, VNum _ => false
  | VStr s, VStr t => String.leb s t
  | VStr _, VDate _ _ _ => true
  | VDate y1 m1 d1, VDate y2 m2 d2 => ymd_leb (y1, m1, d1) (y2, m2, d2)
  | VDate _ _ _, _ => false
  end.

(** [.sort_index()] *)
Definition sort_index (l : list (value * nat)) : list (value * nat) :=
  stable_sort (fun a b => value_leb (fst a) (fst b)) l.

(** [.head(n)] *)
Definition head {A : Type} (n : nat) (l : list A) : list A := firstn n l.

(** ** Key metrics *)

(** A displayed number: ["N/A"], [nan], or a number. *)
Inductive metric : Type :=
  | NA
  | NaN
  | Num (q : Q).

(** Python's [a / b] on integers: the quotient, which Python hands back
    rounded to the nearest double.  The rounding is left out: the quotient
    stands for the double nearest to it. *)
Definition truediv (a b : Z) : result Q :=
  if b =? 0 then Raise ZeroDivisionError else Ok (inject_Z a / inject_Z b)%Q.

Definition years_span (f : FilterSpec) : Z :=
  snd (year_range f) - fst (year_range f) + 1.

(** [len(filtered_df) / years_span if years_span > 0 else 0] *)
Definition avg_per_year (view : DataFrame) (f : FilterSpec) : result Q :=
  if 0 <? years_span f
  then truediv (Z.of_nat (len view)) (years_span f)
  else Ok 0%Q.

(** [s.sum()] in exact arithmetic: nulls are skipped.  The sum of the code
    is the same number as long as it is one a double holds exactly (below
    2^53 in magnitude).  A column that is not numeric is taken to fail: text
    is concatenated by the sum and refused by the number format that
    displays it. *)
Fixpoint series_sum (s : Series) : result Z :=
  match s with
  | [] => Ok 0
  | None :: s' => series_sum s'
  | Some (VNum z) :: s' => t <- series_sum s' ;; Ok (z + t)
  | Some _ :: s' => Raise TypeError
  end.

(** [s.count()]: the non-null cells. *)
Definition series_count (s : Series) : nat :=
  length (filter (fun c => match c with Some _ => true | None => false end) s).

(** [s.mean()]: [nan] when nothing is left to average, and else the sum over
    the number of values, the quotient again standing for the double nearest
    to it. *)
Definition series_mean (s : Series) : result metric :=
  t <- series_sum s ;;
  if (series_count s =? 0)%nat then Ok NaN
  else Ok (Num (inject_Z t / inject_Z (Z.of_nat (series_count s)))%Q).

Definition total_fatalities (view : DataFrame) : result metric :=
  if has_column Fatalities view
  then s <- getitem Fatalities view ;; t <- series_sum s ;; Ok (Num (inject_Z t))
  else Ok NA.

Definition avg_fatalities (view : DataFrame) : result metric :=
  if has_column Fatalities view
  then s <- getitem Fatalities view ;; series_mean s
  else Ok NA.

Record SummaryMetrics : Type := {
  total_crashes : nat;
  avg_crashes_per_year : Q;
  fatalities_total : metric;
  fatalities_avg : metric
}.

Definition summary_metrics (view : DataFrame) (f : FilterSpec) : result SummaryMetrics :=
  a <- avg_per_year view f ;;
  t <- total_fatalities view ;;
  m <- avg_fatalities view ;;
  Ok {| total_crashes := len view;
        avg_crashes_per_year := a;
        fatalities_total := t;
        fatalities_avg := m |}.

(** ** Trends *)

Definition crashes_per_year (view : DataFrame) : result (list (value * nat)) :=
  ys <- getitem Year view ;;
  Ok (sort_index (value_counts ys)).

(** [(y // 10) * 10] on one cell. *)
Definition decade_of (c : cell) : result cell :=
  match c with
  | None => Ok None
  | Some (VNum y) => Ok (Some (VNum (y / 10 * 10)))
  | Some _ => Raise TypeError
  end.

(** [if 'Decade' not in filtered_df.columns: filtered_df['Decade'] = ...] *)
Definition add_decade (view : DataFrame) : result DataFrame :=
  if has_column Decade view then Ok view
  else ys <- getitem Year view ;;
       ds <- mapM decade_of ys ;;
       Ok (setitem Decade ds view).

Definition crashes_by_decade (view : DataFrame) : result (list (value * nat)) :=
  ds <- getitem Decade view ;;
  Ok (sort_index (value_counts ds)).

(** ** Rankings *)

(** [filtered_df[col].value_counts().head(n)] *)
Definition top_categories (view : DataFrame) (col : string) (n : nat)
  : result (list (value * nat)) :=
  s <- getitem col view ;;
  Ok (head n (value_counts s)).

(** The operator chart and table: skipped without the column. *)
Definition top_operators (n : nat) (view : DataFrame)
  : result (option (list (value * nat))) :=
  if has_column Operator view
  then t <- top_categories view Operator n ;; Ok (Some t)
  else Ok None.

Definition Top_locations (n : nat) (view : DataFrame)
  : result (option (list (value * nat))) :=
  if has_column Country view || has_column Location view
  then t <- top_categories view (location_col view) n ;; Ok (Some t)
  else Ok None.

(** ** Missing values *)

Definition is_null (c : cell) : bool :=
  match c with
  | None => true
  | Some _ => false
  end.

(** [df.isnull().sum()]: per column, the number of nulls. *)
Definition isnull_sum (df : DataFrame) : list (string * nat) :=
  map (fun c => (fst c, length (filter is_null (snd c)))) df.

(** [missing_values[missing_values > 0].sort_values(ascending=False)] *)
Definition missing_values (view : DataFrame) : list (string * nat) :=
  sort_values_descending (filter (fun e => (0 <? snd e)%nat) (isnull_sum view)).

(** Nearest integer, a half going to the even neighbour. *)
Definition round_half_even (q : Q) : Z :=
  let f := Qfloor q in
  match (q - inject_Z f ?= 1 # 2)%Q with
  | Lt => f
  | Gt => f + 1
  | Eq => if Z.even f then f else f + 1
  end.

(** [.round(2)], in exact arithmetic. *)
Definition round2 (q : Q) : Q :=
  (inject_Z (round_half_even (q * 100)) / 100)%Q.

(** [(count / len(filtered_df) * 100).round(2)] in exact arithmetic, the
    number that the doubles of [percentage_float64] below come close to; a
    zero divisor yields [inf] or [nan], it does not raise. *)
Definition percentage (count n : nat) : metric :=
  if (n =? 0)%nat then NaN
  else Num (round2 (inject_Z (Z.of_nat count) / inject_Z (Z.of_nat n) * 100))%Q.

Record MissingRow : Type := {
  Column : string;
  Missing_Count : nat;
  Percentage : metric
}.

(** The table of missing values; [None] is the message that nothing is
    missing. *)
Definition missing_df (view : DataFrame) : option (list MissingRow) :=
  let mv := missing_values view in
  if (0 <? length mv)%nat
  then Some (map (fun e => {| Column := fst e;
                              Missing_Count := snd e;
                              Percentage := percentage (snd e) (len view) |}) mv)
  else None.

(** ** The percentages as numpy computes them *)

Module np.

Import PrimFloat.
Local Open Scope float_scope.

(** A count, an [int64], as a [float64]; counts stay far below 2^53, where
    the conversion is exact. *)
Definition float64 (n : nat) : float := of_uint63 (Uint63.of_Z (Z.of_nat n)).

(** [np.rint]: the nearest whole number, a half going to the even
    neighbour.  Below 2^52 in magnitude adding and taking away 2^52 rounds
    to it; from 2^52 on every double is whole. *)
Definition rint (x : float) : float :=
  if ltb (abs x) 0x1p+52
  then (if ltb x 0 then (x - 0x1p+52) + 0x1p+52 else (x + 0x1p+52) - 0x1p+52)
  else x.

(** [x.round(2)]: numpy multiplies by 100, rounds to a whole number and
    divides by 100. *)
Definition round2 (x : float) : float := rint (x * 100) / 100.

(** [k / 100] for a whole [k]: the double nearest to [k] hundredths, which
    is how that number prints. *)
Definition hundredths (k : nat) : float := float64 k / 100.

End np.

(** [(count / len(filtered_df) * 100).round(2)] on one count: the division,
    the product and the rounding are those of doubles. *)
Definition percentage_float64 (count n : nat) : PrimFloat.float :=
  np.round2 (PrimFloat.mul (PrimFloat.div (np.float64 count) (np.float64 n))
                           (np.float64 100)).

(** A line of [missing_df] as the script builds it. *)
Record MissingLine : Type := {
  line_column : string;
  line_missing_count : nat;
  line_percentage : PrimFloat.float
}.

(** [missing_df] with its percentages in doubles; [None] is the message
    that nothing is missing. *)
Definition missing_df_float64 (view : DataFrame) : option (list MissingLine) :=
  let mv := missing_values view in
  if (0 <? length mv)%nat
  then Some (map (fun e => {| line_column := fst e;
                              line_missing_count := snd e;
                              line_percentage :=
                                percentage_float64 (snd e) (len view) |}) mv)
  else None.

(** ** What the claims speak of *)

(** The nearest non-null value strictly above row [i] of a column. *)
Fixpoint nearest_preceding (s : Series) (i : nat) : cell :=
  match i with
  | O => None
  | S j =>
      match nth j s None with
      | Some v => Some v
      | None => nearest_preceding s j
      end
  end.

(** [after] is [before] with every null replaced by the nearest preceding
    non-null value, nulls with nothing above them staying null. *)
Definition forward_filled (before after : Series) : Prop :=
  length after = length before /\
  forall i, (i < length before)%nat ->
    (forall v, nth i before None = Some v -> nth i after None = Some v) /\
    (nth i before None = None ->
       (forall v, nth i after None = Some v <->
          exists j, (j < i)%nat /\ nth j before None = Some v /\
                    forall k, (j < k < i)%nat -> nth k before None = None) /\
       ((forall j, (j <= i)%nat -> nth j before None = None) ->
          nth i after None = None)).

(** A frame whose second row is the 31st of April. *)
Definition april_31 : DataFrame :=
  [ (Year, [Some (VNum 1990); Some (VNum 1990)]);
    (Month, [Some (VNum 4); Some (VNum 4)]);
    (Day, [Some (VNum 30); Some (VNum 31)]) ].

(** A frame whose second row has no year. *)
Definition blank_year : DataFrame :=
  [ (Year, [Some (VNum 1990); None]);
    (Month, [Some (VNum 1); Some (VNum 2)]);
    (Day, [Some (VNum 1); Some (VNum 2)]) ].

Definition cell_eq_dec (a b : cell) : {a = b} + {a <> b}.
Proof.
  decide equality; apply value_eq_dec.
Defined.

Arguments cell_eq_dec : simpl never.

(** The forward fill changes nothing in the column. *)
Definition settled (s : Series) : bool :=
  if list_eq_dec cell_eq_dec (ffill s) s then true else false.

(** The three source columns of the date, when all are there, are settled. *)
Definition date_fields_settled (df : DataFrame) : bool :=
  match get_col Year df, get_col Month df, get_col Day df with
  | Some ys, Some ms, Some ds => settled ys && settled ms && settled ds
  | _, _, _ => true
  end.

(** The first row of a frame, and the frame below it. *)
Definition heads (df : DataFrame) : record :=
  map (fun c => (fst c, hd None (snd c))) df.

Definition tails (df : DataFrame) : DataFrame :=
  map (fun c => (fst c, tl (snd c))) df.

(** The rows of a frame whose record passes [p]. *)
Definition filter_records (p : record -> bool) (df : DataFrame) : DataFrame :=
  boolean_index df (map p (records df)).

(** The year test of the filter, on a cell. *)
Definition year_cell (lo hi : Z) (c : cell) : bool :=
  match c with
  | Some (VNum y) => (lo <=? y) && (y <=? hi)
  | _ => false
  end.

(** The scenario of three crashes, one without a fatality count. *)
Definition three_crashes : DataFrame :=
  [ (Year, [Some (VNum 1990); Some (VNum 1990); Some (VNum 2005)]);
    (Operator, [Some (VStr "Aeroflot"); Some (VStr "Pan Am"); Some (VStr "Aeroflot")]);
    (Fatalities, [Some (VNum 10); None; Some (VNum 5)]) ].

Definition years_2000_2010 : Widgets :=
  {| slider := (2000, 2010); operator_box := All; location_box := All |}.

(** The non-null values of a column, in order. *)
Definition dropna (s : Series) : list value :=
  flat_map (fun c => match c with Some v => [v] | None => [] end) s.

(** The number of distinct non-null values of a column. *)
Definition distinct_values (s : Series) : nat :=
  length (nodup value_eq_dec (dropna s)).

(** The number of records whose cell holds [v]. *)
Definition frequency (v : value) (s : Series) : nat :=
  count_occ cell_eq_dec s (Some v).

(** The row at which [v] is first met in the column. *)
Fixpoint first_seen (v : value) (s : Series) : nat :=
  match s with
  | [] => 0%nat
  | c :: s' => if cell_eq_dec c (Some v) then 0%nat else S (first_seen v s')
  end.

(** The order claimed of a ranking, [a] before [b]: [a] is more frequent,
    or as frequent and met first. *)
Definition ranks_before (s : Series) (a b : value * nat) : Prop :=
  (snd b < snd a)%nat \/
  (snd a = snd b /\ (first_seen (fst a) s < first_seen (fst b) s)%nat).

(** The sum of the counts of a table. *)
Definition total_count {K : Type} (l : list (K * nat)) : nat :=
  list_sum (map snd l).

(** A frame that comes with a decade column of its own, blank in the first
    row. *)
Definition own_decade : DataFrame :=
  [ (Year, [Some (VNum 1990); Some (VNum 1991)]);
    (Decade, [None; Some (VNum 1990)]) ].

Definition all_years : Widgets :=
  {| slider := (1900, 2100); operator_box := All; location_box := All |}.

(** What the counting pass maintains: one line per distinct non-null value
    met so far, with its frequency, the lines in the order the values were
    first met. *)
Definition counted (s : Series) (tbl : list (value * nat)) : Prop :=
  NoDup (map fst tbl) /\
  (forall k c, In (k, c) tbl -> c = frequency k s /\ In (Some k) s) /\
  (forall v, In (Some v) s -> In v (map fst tbl)) /\
  StronglySorted (fun a b => (first_seen a s < first_seen b s)%nat) (map fst tbl).

(** [(y // 10) * 10] on a cell that holds a number. *)
Definition decade_cell (c : cell) : cell :=
  match c with
  | Some (VNum y) => Some (VNum (y / 10 * 10))
  | _ => None
  end.

(** What [value_counts()] promises of its outcome: the lines of the counting
    pass, by decreasing count, in any order among lines of equal count. *)
Definition sorted_counts (s : Series) (tbl : list (value * nat)) : Prop :=
  Permutation tbl (value_counts_arraylike s) /\
  StronglySorted (fun a b => (snd b <= snd a)%nat) tbl.

(** Two operators with one crash each, [O03] met first. *)
Definition tied_operators : Series := [Some (VStr "O03"); Some (VStr "O02")].

(** 160 crashes, the first 23 of them without an operator. *)
Definition operator_gaps : DataFrame :=
  [ (Year, repeat (Some (VNum 1990)) 160);
    (Operator, repeat None 23 ++ repeat (Some (VStr "Aeroflot")) 137) ].

(** A ranking counts the records that hold the ranked value, and nothing
    else: every line names a value that occurs, with its frequency. *)
Definition counts_occurrences (s : Series) (top : list (value * nat)) : Prop :=
  forall v c, In (v, c) top -> In (Some v) s /\ c = frequency v s.

(** The three crashes once preprocessed, and what the years 2000 to 2010
    leave of them. *)
Definition crashes : DataFrame := preprocess_data three_crashes.

Definition view_2000_2010 : DataFrame :=
  [ (Year, [Some (VNum 2005)]);
    (Operator, [Some (VStr "Aeroflot")]);
    (Fatalities, [Some (VNum 5)]) ].

(** A choice of years that no crash of the scenario falls in, and the view
    it leaves. *)
Definition years_2020_2021 : Widgets :=
  {| slider := (2020, 2021); operator_box := All; location_box := All |}.

Definition no_crash : DataFrame :=
  [ (Year, []); (Operator, []); (Fatalities, []) ].

(** The view in which every column is empty. *)
Definition no_rows (view : DataFrame) : Prop :=
  forall c, In c view -> snd c = [].

(** The number of nulls of a column. *)
Definition null_count (s : Series) : nat := count_occ cell_eq_dec s None.

(** [count / n * 100], exactly. *)
Definition exact_percentage (count n : nat) : Q :=
  (inject_Z (Z.of_nat count) / inject_Z (Z.of_nat n) * 100)%Q.

(** The columns with a null, each with its number of nulls. *)
Definition columns_with_nulls (view : DataFrame) : list (string * nat) :=
  filter (fun e => (0 <? snd e)%nat)
         (map (fun c => (fst c, null_count (snd c))) view).

(** ** The data sample *)

(** [df.head(n)]: the first [n] rows. *)
Definition df_head (n : nat) (df : DataFrame) : DataFrame :=
  map (fun c => (fst c, firstn n (snd c))) df.

(** [filtered_df.head(100)], the table of the third tab. *)
Definition data_sample (view : DataFrame) : DataFrame := df_head 100 view.

(** The three source columns of the date are all there. *)
Definition has_date_fields (df : DataFrame) : bool :=
  has_column Year df && has_column Month df && has_column Day df.

(** A frame without a year column, and one whose years are text. *)
Definition no_year : DataFrame :=
  [ (Operator, [Some (VStr "Aeroflot")]) ].

Definition text_year : DataFrame :=
  [ (Year, [Some (VNum 1990); Some (VStr "unknown")]) ].

(** ** The select boxes and the rank tables *)

(** [.unique()]: the values in the order they are first met. *)
Definition unique (l : list value) : list value :=
  fold_left (fun seen v => if in_dec value_eq_dec v seen then seen else seen ++ [v])
            l [].

(** What kind of value a cell holds: a number, text or a date. *)
Definition kind (v : value) : nat :=
  match v with
  | VNum _ => 0%nat
  | VStr _ => 1%nat
  | VDate _ _ _ => 2%nat
  end.

Definition same_kind (l : list value) : bool :=
  match l with
  | [] => true
  | v :: l' => forallb (fun w => Nat.eqb (kind w) (kind v)) l'
  end.

(** Python's [sorted]: ascending and stable; ordering text against a number
    raises [TypeError]. *)
Definition py_sorted (l : list value) : result (list value) :=
  if same_kind l then Ok (stable_sort value_leb l) else Raise TypeError.

(** [['All'] + sorted(df[label].dropna().unique().tolist())] *)
Definition select_options (df : DataFrame) (label : string) : result (list value) :=
  s <- getitem label df ;;
  l <- py_sorted (unique (dropna s)) ;;
  Ok (All :: l).

(** The options of the operator box; [None] when there is no box. *)
Definition operators (df : DataFrame) : result (option (list value)) :=
  if has_column Operator df
  then o <- select_options df Operator ;; Ok (Some o)
  else Ok None.

Definition locations (df : DataFrame) : result (option (list value)) :=
  if has_column Country df || has_column Location df
  then o <- select_options df (location_col df) ;; Ok (Some o)
  else Ok None.

(** The table of a ranking: a [Rank] column [range(1, len(top) + 1)] beside
    the labels and the counts. *)
Definition rank_table (top : list (value * nat)) : list (nat * (value * nat)) :=
  combine (seq 1 (length top)) top.

(** [operator_df] and [location_df], the tables of the second tab. *)
Definition operator_df (view : DataFrame)
  : result (option (list (nat * (value * nat)))) :=
  t <- top_operators 15 view ;; Ok (option_map rank_table t).

Definition location_df (view : DataFrame)
  : result (option (list (nat * (value * nat)))) :=
  t <- Top_locations 15 view ;; Ok (option_map rank_table t).

(** A column is text when its cells are text or null. *)
Definition is_text (c : cell) : bool :=
  match c with
  | None => true
  | Some (VStr _) => true
  | Some _ => false
  end.

(** A frame of operators, one of them a number. *)
Definition mixed_operators : DataFrame :=
  [ (Operator, [Some (VStr "Aeroflot"); Some (VNum 7)]) ].

(** * Proofs *)

(** ** Frames *)

Section Frames.

Variable label : string.

Lemma get_col_setitem_same (s : Series) (df : DataFrame) :
  get_col label (setitem label s df) = Some s.
Proof.
  induction df as [|[n s0] df IH]; simpl.
  - now rewrite String.eqb_refl.
  - destruct (String.eqb label n) eqn:E; simpl; rewrite E; auto.
Qed.

Lemma get_col_setitem_other (other : string) (s : Series) (df : DataFrame) :
  String.eqb label other = false ->
  get_col label (setitem other s df) = get_col label df.
Proof.
  intros Hne. induction df as [|[n s0] df IH]; simpl.
  - now rewrite Hne.
  - destruct (String.eqb other n) eqn:E; simpl.
    + apply String.eqb_eq in E. subst n. now rewrite Hne.
    + destruct (String.eqb label n); auto.
Qed.

Lemma get_col_map (g : Series -> Series) (df : DataFrame) :
  get_col label (map (fun c => (fst c, g (snd c))) df)
  = option_map g (get_col label df).
Proof.
  induction df as [|[n s0] df IH]; simpl; auto.
  destruct (String.eqb label n); auto.
Qed.

Lemma setitem_map (g : Series -> Series) (s : Series) (df : DataFrame) :
  map (fun c => (fst c, g (snd c))) (setitem label s df)
  = setitem label (g s) (map (fun c => (fst c, g (snd c))) df).
Proof.
  induction df as [|[n s0] df IH]; simpl; auto.
  destruct (String.eqb label n); simpl; congruence.
Qed.

Lemma setitem_setitem (s s' : Series) (df : DataFrame) :
  setitem label s (setitem label s' df) = setitem label s df.
Proof.
  induction df as [|[n s0] df IH]; simpl.
  - now rewrite String.eqb_refl.
  - destruct (String.eqb label n) eqn:E; simpl; rewrite E; congruence.
Qed.

Lemma has_column_get_col (df : DataFrame) :
  has_column label df = true <-> exists s, get_col label df = Some s.
Proof.
  induction df as [|[n s0] df IH]; simpl.
  - split; [discriminate | intros [s Hs]; discriminate].
  - destruct (String.eqb label n); simpl; [|exact IH].
    split; eauto.
Qed.

Lemma has_column_false (df : DataFrame) :
  has_column label df = false <-> get_col label df = None.
Proof.
  induction df as [|[n s0] df IH]; simpl.
  - tauto.
  - destruct (String.eqb label n); simpl; [|exact IH].
    split; discriminate.
Qed.

Lemma has_column_labels (df df' : DataFrame) :
  map fst df = map fst df' -> has_column label df = has_column label df'.
Proof.
  revert df'. induction df as [|[n s0] df IH]; intros [|[n' s'] df'] H;
    simpl in *; try discriminate; auto.
  injection H as -> H. f_equal. now apply IH.
Qed.

End Frames.

(** ** The forward fill *)

Section ForwardFill.

Lemma ffill_from_length (s : Series) : forall last,
  length (ffill_from last s) = length s.
Proof.
  induction s as [|[v|] s IH]; intros last; simpl; auto.
Qed.

Lemma nearest_preceding_cons (c : cell) (s : Series) (i : nat) :
  nearest_preceding (c :: s) (S i)
  = match nearest_preceding s i with
    | Some v => Some v
    | None => c
    end.
Proof.
  induction i as [|i IH].
  - simpl. now destruct c.
  - change (nearest_preceding (c :: s) (S (S i)))
      with (match nth i s None with
            | Some v => Some v
            | None => nearest_preceding (c :: s) (S i)
            end).
    rewrite IH. simpl. now destruct (nth i s None).
Qed.

(** The scan, row by row. *)
Lemma ffill_from_nth (s : Series) : forall last i,
  (i < length s)%nat ->
  nth i (ffill_from last s) None
  = match nth i s None with
    | Some v => Some v
    | None =>
        match nearest_preceding s i with
        | Some v => Some v
        | None => last
        end
    end.
Proof.
  induction s as [|c s IH]; intros last i Hi; simpl in Hi; [lia|].
  destruct i as [|i].
  - destruct c; reflexivity.
  - rewrite nearest_preceding_cons.
    assert (Hi' : (i < length s)%nat) by lia.
    destruct c as [v|]; simpl; rewrite (IH _ i Hi');
      destruct (nth i s None); auto;
      destruct (nearest_preceding s i); auto.
Qed.

Lemma nearest_preceding_some (s : Series) (i : nat) (v : value) :
  nearest_preceding s i = Some v <->
  exists j, (j < i)%nat /\ nth j s None = Some v /\
            forall k, (j < k < i)%nat -> nth k s None = None.
Proof.
  induction i as [|i IH]; simpl.
  - split; [discriminate | intros (j & Hj & _); lia].
  - destruct (nth i s None) as [w|] eqn:E.
    + split.
      * intros H. exists i. repeat split; auto; try congruence. intros k Hk. lia.
      * intros (j & Hj & Hv & Hgap).
        destruct (Nat.eq_dec j i) as [->|Hne]; [congruence|].
        rewrite (Hgap i) in E by lia. discriminate.
    + rewrite IH. split.
      * intros (j & Hj & Hv & Hgap). exists j. repeat split; auto.
        intros k Hk. destruct (Nat.eq_dec k i) as [->|Hne]; auto. apply Hgap. lia.
      * intros (j & Hj & Hv & Hgap).
        destruct (Nat.eq_dec j i) as [->|Hne]; [congruence|].
        exists j. repeat split; auto; try lia. intros k Hk. apply Hgap. lia.
Qed.

Lemma nearest_preceding_none (s : Series) (i : nat) :
  (forall j, (j < i)%nat -> nth j s None = None) -> nearest_preceding s i = None.
Proof.
  induction i as [|i IH]; intros H; simpl; auto.
  rewrite (H i) by lia. apply IH. intros j Hj. apply H. lia.
Qed.

Lemma ffill_forward_filled (s : Series) : forward_filled s (ffill s).
Proof.
  split; [apply ffill_from_length|].
  intros i Hi. unfold ffill. rewrite (ffill_from_nth s None i Hi).
  split; [|split].
  - intros v ->. reflexivity.
  - intros v. rewrite H. rewrite <- nearest_preceding_some.
    destruct (nearest_preceding s i); tauto.
  - intros Hnull. rewrite H.
    rewrite nearest_preceding_none; auto. intros j Hj. apply Hnull. lia.
Qed.

Lemma ffill_from_idem (s : Series) : forall last,
  ffill_from last (ffill_from last s) = ffill_from last s.
Proof.
  induction s as [|[v|] s IH]; intros last; simpl; auto.
  - now rewrite IH.
  - destruct last as [w|]; simpl; now rewrite IH.
Qed.

Lemma fillna_ffill_idem (df : DataFrame) :
  fillna_ffill (fillna_ffill df) = fillna_ffill df.
Proof.
  unfold fillna_ffill. rewrite map_map. apply map_ext.
  intros [n s]. simpl. unfold ffill. now rewrite ffill_from_idem.
Qed.

End ForwardFill.

(** C2. Missing-value repair: column by column, labels and order of columns
    unchanged, the preprocessor's last step replaces every null with the
    nearest preceding non-null value of its column and leaves the nulls at
    the head of a column null, whatever the column holds. *)
Theorem C2_missing_value_repair (df : DataFrame) :
  Forall2 (fun before after =>
             fst after = fst before /\ forward_filled (snd before) (snd after))
          (derive_date df) (preprocess_data df).
Proof.
  unfold preprocess_data, fillna_ffill.
  induction (derive_date df) as [|[n s] cols IH]; simpl; constructor; auto.
  simpl. split; auto. apply ffill_forward_filled.
Qed.

(** ** The derived date *)

Section DerivedDate.

Lemma to_datetime_coerce_nth (ys : Series) : forall ms ds i y m d,
  nth_error ys i = Some y -> nth_error ms i = Some m -> nth_error ds i = Some d ->
  nth_error (to_datetime_coerce ys ms ds) i = Some (assemble_date y m d).
Proof.
  induction ys as [|y0 ys IH]; intros [|m0 ms] [|d0 ds] [|i] y m d Hy Hm Hd;
    simpl in *; try discriminate.
  - congruence.
  - eapply IH; eauto.
Qed.

Lemma get_col_derive_date (label : string) (df : DataFrame) :
  String.eqb label Date = false ->
  get_col label (derive_date df) = get_col label df.
Proof.
  intros Hne. unfold derive_date.
  destruct (get_col Year df), (get_col Month df), (get_col Day df); auto.
  now apply get_col_setitem_other.
Qed.

Lemma get_col_preprocess (label : string) (df : DataFrame) :
  String.eqb label Date = false ->
  get_col label (preprocess_data df) = option_map ffill (get_col label df).
Proof.
  intros Hne. unfold preprocess_data, fillna_ffill.
  rewrite get_col_map. now rewrite get_col_derive_date.
Qed.

Lemma settled_ffill (s : Series) : settled s = true -> ffill s = s.
Proof.
  unfold settled. now destruct (list_eq_dec cell_eq_dec (ffill s) s).
Qed.

End DerivedDate.

(** Within four digits of year and two of month and day, the packed number
    reads back as the three fields. *)
Lemma parse_yyyymmdd_fields (y m d : Z) :
  1000 <= y <= 9999 -> 0 <= m <= 99 -> 0 <= d <= 99 ->
  parse_yyyymmdd (y * 10000 + m * 100 + d)
  = if valid_calendar_date y m d && in_timestamp_bounds y m d
    then Some (VDate y m d) else None.
Proof.
  intros Hy Hm Hd. unfold parse_yyyymmdd, strptime_Ymd.
  assert (Hlo : (10000000 <=? y * 10000 + m * 100 + d) = true)
    by (apply Z.leb_le; lia).
  assert (Hhi : (y * 10000 + m * 100 + d <=? 99999999) = true)
    by (apply Z.leb_le; lia).
  rewrite Hlo, Hhi. cbv zeta. simpl andb.
  assert (Ey : (y * 10000 + m * 100 + d) / 10000 = y).
  { symmetry. apply (Z.div_unique _ 10000 y (m * 100 + d)); lia. }
  assert (Ed : (y * 10000 + m * 100 + d) mod 100 = d).
  { symmetry. apply (Z.mod_unique _ 100 (y * 100 + m) d); lia. }
  assert (Em : ((y * 10000 + m * 100 + d) / 100) mod 100 = m).
  { assert (E : (y * 10000 + m * 100 + d) / 100 = y * 100 + m).
    { symmetry. apply (Z.div_unique _ 100 (y * 100 + m) d); lia. }
    rewrite E. symmetry. apply (Z.mod_unique _ 100 y m); lia. }
  rewrite Ey, Ed, Em. reflexivity.
Qed.

(** C3, as the claim has it, fails twice.  The 31st of April is no date:
    the derivation leaves the second record's date null, and the
    preprocessor then hands that record the date of the record above it.
    And month 11 with day 101 is no date either, yet the derivation reads
    the packed digits 19901201 and answers the first of December. *)
Lemma C3_invalid_date_is_filled :
  valid_calendar_date 1990 4 31 = false /\
  get_col Date (derive_date april_31) = Some [Some (VDate 1990 4 30); None] /\
  get_col Date (preprocess_data april_31)
  = Some [Some (VDate 1990 4 30); Some (VDate 1990 4 30)] /\
  valid_calendar_date 1990 11 101 = false /\
  assemble_date (Some (VNum 1990)) (Some (VNum 11)) (Some (VNum 101))
  = Some (VDate 1990 12 1) /\
  ~ (forall df ys ms ds i y m d,
       get_col Year df = Some ys -> get_col Month df = Some ms ->
       get_col Day df = Some ds ->
       nth_error ys i = Some (Some (VNum y)) ->
       nth_error ms i = Some (Some (VNum m)) ->
       nth_error ds i = Some (Some (VNum d)) ->
       valid_calendar_date y m d = false ->
       exists dates, get_col Date (preprocess_data df) = Some dates /\
                     nth_error dates i = Some None).
Proof.
  repeat split; try reflexivity.
  intros H.
  destruct (H april_31 _ _ _ 1%nat 1990 4 31 eq_refl eq_refl eq_refl
              eq_refl eq_refl eq_refl eq_refl) as (dates & Hd & Hnull).
  vm_compute in Hd. injection Hd as <-. discriminate Hnull.
Qed.

(** C3, amended.  With the three columns there, the derivation step sets
    the [Date] column to the dates read from the packed fields and raises
    nothing.  For a record with a year of four digits and a month and a day
    of at most two, the derived date is null when the three fields form no
    calendar date, null when they form a date outside 1677-09-22 to
    2262-04-11, the days a timestamp holds, and the composed date otherwise.
    The preprocessor's output carries that column forward-filled like every
    other: a record whose derived date is null shows the nearest date above
    it, and stays null only when there is none. *)
Theorem C3_date_derivation (df : DataFrame) (ys ms ds : Series) :
  get_col Year df = Some ys -> get_col Month df = Some ms ->
  get_col Day df = Some ds ->
  get_col Date (derive_date df) = Some (to_datetime_coerce ys ms ds) /\
  get_col Date (preprocess_data df) = Some (ffill (to_datetime_coerce ys ms ds)) /\
  forward_filled (to_datetime_coerce ys ms ds) (ffill (to_datetime_coerce ys ms ds)) /\
  forall i y m d,
    nth_error ys i = Some (Some (VNum y)) ->
    nth_error ms i = Some (Some (VNum m)) ->
    nth_error ds i = Some (Some (VNum d)) ->
    1000 <= y <= 9999 -> 0 <= m <= 99 -> 0 <= d <= 99 ->
    (valid_calendar_date y m d = false ->
       nth_error (to_datetime_coerce ys ms ds) i = Some None) /\
    (in_timestamp_bounds y m d = false ->
       nth_error (to_datetime_coerce ys ms ds) i = Some None) /\
    (valid_calendar_date y m d = true -> in_timestamp_bounds y m d = true ->
       nth_error (to_datetime_coerce ys ms ds) i = Some (Some (VDate y m d))).
Proof.
  intros HY HM HD.
  assert (Hder : get_col Date (derive_date df) = Some (to_datetime_coerce ys ms ds)).
  { unfold derive_date. rewrite HY, HM, HD. apply get_col_setitem_same. }
  split; [exact Hder|]. split; [|split].
  - unfold preprocess_data, fillna_ffill. rewrite get_col_map, Hder. reflexivity.
  - apply ffill_forward_filled.
  - intros i y m d Hy Hm Hd Ry Rm Rd.
    rewrite (to_datetime_coerce_nth _ _ _ _ _ _ _ Hy Hm Hd).
    unfold assemble_date. rewrite (parse_yyyymmdd_fields y m d Ry Rm Rd).
    split; [|split].
    + intros ->. reflexivity.
    + intros ->. rewrite andb_false_r. reflexivity.
    + intros -> ->. reflexivity.
Qed.

Lemma C3_date_derivation_witness :
  get_col Date (derive_date april_31)
  = Some (to_datetime_coerce [Some (VNum 1990); Some (VNum 1990)]
                             [Some (VNum 4); Some (VNum 4)]
                             [Some (VNum 30); Some (VNum 31)]) /\
  nth_error (to_datetime_coerce [Some (VNum 1990); Some (VNum 1990)]
                                [Some (VNum 4); Some (VNum 4)]
                                [Some (VNum 30); Some (VNum 31)]) 1 = Some None.
Proof.
  pose proof (C3_date_derivation april_31 _ _ _ eq_refl eq_refl eq_refl) as H.
  split; [exact (proj1 H)|].
  destruct H as (_ & _ & _ & H).
  refine (proj1 (H 1%nat 1990 4 31 eq_refl eq_refl eq_refl _ _ _) eq_refl); lia.
Defined.

(** C4, as the claim has it, fails: the first pass fills the blank year and
    the blank date; the second pass composes the date again, now from the
    filled year, and overwrites the filled date. *)
Lemma C4_second_pass_differs :
  get_col Date (preprocess_data blank_year)
  = Some [Some (VDate 1990 1 1); Some (VDate 1990 1 1)] /\
  get_col Date (preprocess_data (preprocess_data blank_year))
  = Some [Some (VDate 1990 1 1); Some (VDate 1990 2 2)] /\
  preprocess_data (preprocess_data blank_year) <> preprocess_data blank_year.
Proof.
  repeat split; try reflexivity.
  vm_compute. discriminate.
Qed.

(** C4, amended.  The preprocessor is idempotent on every frame in which
    the forward fill leaves the [Year], [Month] and [Day] columns as they
    are, or in which one of the three is missing. *)
Theorem C4_idempotent_when_settled (df : DataFrame) :
  date_fields_settled df = true ->
  preprocess_data (preprocess_data df) = preprocess_data df.
Proof.
  unfold date_fields_settled. intros Hs.
  unfold preprocess_data at 1. unfold derive_date at 1.
  rewrite !get_col_preprocess by reflexivity.
  unfold preprocess_data, derive_date.
  destruct (get_col Year df) as [ys|] eqn:HY; simpl;
    [|apply fillna_ffill_idem].
  destruct (get_col Month df) as [ms|] eqn:HM; simpl;
    [|apply fillna_ffill_idem].
  destruct (get_col Day df) as [ds|] eqn:HD; simpl;
    [|apply fillna_ffill_idem].
  apply andb_prop in Hs as [Hs Hd]. apply andb_prop in Hs as [Hy Hm].
  rewrite (settled_ffill _ Hy), (settled_ffill _ Hm), (settled_ffill _ Hd).
  unfold fillna_ffill.
  rewrite !setitem_map, setitem_setitem.
  fold (fillna_ffill df). fold (fillna_ffill (fillna_ffill df)).
  rewrite fillna_ffill_idem. reflexivity.
Qed.

Lemma C4_idempotent_when_settled_witness :
  preprocess_data (preprocess_data april_31) = preprocess_data april_31.
Proof.
  apply (C4_idempotent_when_settled april_31). reflexivity.
Defined.

(** ** Rows and records *)

Section Records.

Lemma rectangular_spec (df : DataFrame) :
  rectangular df = true <-> forall c, In c df -> length (snd c) = len df.
Proof.
  unfold rectangular. rewrite forallb_forall.
  split; intros H c Hc; specialize (H c Hc); now apply Nat.eqb_eq.
Qed.

Lemma get_col_In (label : string) (df : DataFrame) (s : Series) :
  get_col label df = Some s -> In (label, s) df.
Proof.
  induction df as [|[n s0] df IH]; simpl; [discriminate|].
  destruct (String.eqb label n) eqn:E.
  - apply String.eqb_eq in E. intros [= ->]. subst. now left.
  - intros H. right. now apply IH.
Qed.

Lemma get_col_length (label : string) (df : DataFrame) (s : Series) :
  rectangular df = true -> get_col label df = Some s -> length s = len df.
Proof.
  intros Hr Hs. apply get_col_In in Hs.
  rewrite rectangular_spec in Hr. exact (Hr _ Hs).
Qed.

Lemma field_row_at (label : string) (df : DataFrame) (i : nat) :
  field label (row_at df i)
  = option_map (fun s => nth i s None) (get_col label df).
Proof.
  induction df as [|[n s0] df IH]; simpl; auto.
  destruct (String.eqb label n); auto.
Qed.

Lemma map_nth_seq {B : Type} (g : cell -> B) (s : Series) :
  map (fun i => g (nth i s None)) (seq 0 (length s)) = map g s.
Proof.
  induction s as [|c s IH]; simpl; auto.
  f_equal. rewrite <- seq_shift, map_map. exact IH.
Qed.

(** A mask computed from a column is a test on the records. *)
Lemma mask_of_column (g : option cell -> bool) (label : string)
      (df : DataFrame) (s : Series) :
  rectangular df = true -> get_col label df = Some s ->
  map (fun c => g (Some c)) s = map (fun r => g (field label r)) (records df).
Proof.
  intros Hr Hs. unfold records. rewrite map_map.
  rewrite <- (get_col_length _ _ _ Hr Hs).
  rewrite <- (map_nth_seq (fun c => g (Some c)) s).
  apply map_ext. intros i. rewrite field_row_at, Hs. reflexivity.
Qed.

Lemma len_tails (df : DataFrame) : len (tails df) = pred (len df).
Proof.
  destruct df as [|[n s] df]; simpl; auto. now destruct s.
Qed.

Lemma rectangular_tails (df : DataFrame) :
  rectangular df = true -> rectangular (tails df) = true.
Proof.
  rewrite !rectangular_spec. intros H c Hc.
  unfold tails in Hc. apply in_map_iff in Hc as ([n s] & <- & Hin).
  rewrite len_tails. simpl. rewrite <- (H _ Hin). simpl. now destruct s.
Qed.

Lemma records_peel (df : DataFrame) (n : nat) :
  len df = S n -> records df = heads df :: records (tails df).
Proof.
  intros Hn. unfold records. rewrite len_tails, Hn. simpl. f_equal.
  - unfold row_at, heads. apply map_ext. intros [l s]. simpl. now destruct s.
  - rewrite <- seq_shift, map_map. apply map_ext. intros i.
    unfold row_at, tails. rewrite map_map. apply map_ext.
    intros [l s]. simpl. destruct s; simpl; auto. now destruct i.
Qed.

Lemma select_nil {A : Type} (mask : list bool) : @select A mask [] = [].
Proof. now destruct mask as [|[|] mask]. Qed.

Lemma select_map_filter {A : Type} (p : A -> bool) (l : list A) :
  select (map p l) l = filter p l.
Proof.
  induction l as [|a l IH]; simpl; auto.
  destruct (p a); now rewrite IH.
Qed.

Lemma select_length {A B : Type} (mask : list bool) :
  forall (l : list A) (l' : list B),
    length l = length l' -> length (select mask l) = length (select mask l').
Proof.
  induction mask as [|b mask IH]; intros [|a l] [|a' l'] H; simpl in *;
    try discriminate; auto.
  destruct b; simpl; auto.
Qed.

Lemma labels_boolean_index (df : DataFrame) (mask : list bool) :
  map fst (boolean_index df mask) = map fst df.
Proof.
  unfold boolean_index. rewrite map_map. reflexivity.
Qed.

Lemma rectangular_boolean_index (df : DataFrame) (mask : list bool) :
  rectangular df = true -> rectangular (boolean_index df mask) = true.
Proof.
  rewrite !rectangular_spec. intros H c Hc.
  unfold boolean_index in *. apply in_map_iff in Hc as ([n s] & <- & Hin).
  simpl. destruct df as [|[n0 s0] df]; [contradiction|]. simpl.
  apply select_length. exact (H _ Hin).
Qed.

(** Selecting rows of the frame selects its records. *)
Lemma records_boolean_index (mask : list bool) : forall df,
  rectangular df = true -> length mask = len df ->
  records (boolean_index df mask) = select mask (records df).
Proof.
  induction mask as [|b mask IH]; intros df Hr Hlen; simpl in Hlen.
  - unfold records. rewrite <- Hlen. simpl.
    replace (len (boolean_index df [])) with 0%nat; auto.
    destruct df as [|[n s] df]; simpl; auto.
  - symmetry in Hlen. rewrite (records_peel df _ Hlen). cbn [select].
    assert (Hlen' : length mask = len (tails df))
      by (rewrite len_tails, Hlen; reflexivity).
    specialize (IH (tails df) (rectangular_tails _ Hr) Hlen').
    destruct b.
    + assert (HX : boolean_index df (true :: mask)
                   = map (fun c : string * Series =>
                            (fst c, hd None (snd c) :: select mask (tl (snd c)))) df).
      { unfold boolean_index. apply map_ext_in. intros [n s] Hin.
        rewrite rectangular_spec in Hr. specialize (Hr _ Hin). simpl in *.
        destruct s; simpl; auto. rewrite Hlen in Hr. discriminate. }
      rewrite HX.
      assert (HS : exists k, len (map (fun c : string * Series =>
                     (fst c, hd None (snd c) :: select mask (tl (snd c)))) df) = S k).
      { destruct df as [|[n s] df]; simpl in *; [discriminate|eauto]. }
      destruct HS as [k Hk]. rewrite (records_peel _ _ Hk).
      f_equal.
      * unfold heads. rewrite map_map. reflexivity.
      * rewrite <- IH. f_equal. unfold tails, boolean_index.
        rewrite !map_map. reflexivity.
    + rewrite <- IH. f_equal. unfold tails, boolean_index. rewrite map_map.
      apply map_ext. intros [n s]. simpl. destruct s; simpl; auto.
      now rewrite select_nil.
Qed.

Lemma length_records (df : DataFrame) : length (records df) = len df.
Proof.
  unfold records. now rewrite length_map, length_seq.
Qed.

Lemma records_filter_records (p : record -> bool) (df : DataFrame) :
  rectangular df = true ->
  records (filter_records p df) = filter p (records df).
Proof.
  intros Hr. unfold filter_records.
  rewrite records_boolean_index; auto.
  - apply select_map_filter.
  - now rewrite length_map, length_records.
Qed.

Lemma In_records (df : DataFrame) (r : record) :
  In r (records df) <-> exists i, (i < len df)%nat /\ r = row_at df i.
Proof.
  unfold records. rewrite in_map_iff. split.
  - intros (i & <- & Hi). apply in_seq in Hi. exists i. split; auto. lia.
  - intros (i & Hi & ->). exists i. split; auto. apply in_seq. lia.
Qed.

End Records.

(** ** The filter *)

Section Filter.

Lemma series_ge_numeric (k : Z) (s : Series) :
  forallb is_number s = true ->
  series_ge s k
  = Ok (map (fun c => match c with Some (VNum z) => k <=? z | _ => false end) s).
Proof.
  unfold series_ge. induction s as [|c s IH]; simpl; auto.
  intros H. apply andb_prop in H as [Hc Hs]. rewrite (IH Hs).
  destruct c as [[z| |]|]; simpl in *; try discriminate; auto.
Qed.

Lemma series_le_numeric (k : Z) (s : Series) :
  forallb is_number s = true ->
  series_le s k
  = Ok (map (fun c => match c with Some (VNum z) => z <=? k | _ => false end) s).
Proof.
  unfold series_le. induction s as [|c s IH]; simpl; auto.
  intros H. apply andb_prop in H as [Hc Hs]. rewrite (IH Hs).
  destruct c as [[z| |]|]; simpl in *; try discriminate; auto.
Qed.

(** A comparison that returns has met numbers and nulls only. *)
Lemma series_ge_returns (k : Z) (s : Series) (m : list bool) :
  series_ge s k = Ok m -> forallb is_number s = true.
Proof.
  unfold series_ge. revert m. induction s as [|c s IH]; intros m; simpl; auto.
  destruct c as [[z| |]|]; simpl; try discriminate;
    destruct (mapM (ge_scalar k) s) eqn:E; simpl; try discriminate;
    intros _; eapply IH; eauto.
Qed.

Lemma mask_and_map {A : Type} (p q : A -> bool) (l : list A) :
  mask_and (map p l) (map q l) = map (fun a => p a && q a) l.
Proof.
  unfold mask_and. induction l as [|a l IH]; simpl; auto. now rewrite IH.
Qed.

Lemma year_in_range_field (lo hi : Z) (r : record) :
  year_in_range lo hi r
  = match field Year r with
    | Some c => year_cell lo hi c
    | None => false
    end.
Proof.
  unfold year_in_range, year_cell.
  destruct (field Year r) as [[[y| |]|]|]; reflexivity.
Qed.

(** The first statement of the filter keeps the records in range. *)
Lemma filter_years_records (df : DataFrame) (f : FilterSpec) :
  rectangular df = true -> numeric_year df = true ->
  filter_years df f
  = Ok (filter_records
          (year_in_range (fst (year_range f)) (snd (year_range f))) df).
Proof.
  intros Hr Hn. unfold numeric_year in Hn. unfold filter_years, getitem.
  destruct (get_col Year df) as [ys|] eqn:HY; [|discriminate]. simpl.
  rewrite (series_ge_numeric _ _ Hn). simpl.
  rewrite (series_le_numeric _ _ Hn). simpl.
  rewrite mask_and_map. unfold filter_records. do 2 f_equal.
  set (lo := fst (year_range f)). set (hi := snd (year_range f)).
  set (G := fun oc : option cell =>
              match oc with
              | Some c => year_cell lo hi c
              | None => false
              end).
  rewrite (map_ext (year_in_range lo hi) (fun r => G (field Year r))
                   (year_in_range_field lo hi)).
  rewrite <- (mask_of_column G Year df ys Hr HY).
  apply map_ext. intros [[y| |]|]; reflexivity.
Qed.

(** An equality constraint, active or not, keeps the records that pass. *)
Lemma filter_equal_records (active : bool) (label : string) (v : value)
      (view : DataFrame) :
  rectangular view = true ->
  (active = true -> has_column label view = true) ->
  exists view',
    (if active
     then s <- getitem label view ;; Ok (boolean_index view (series_eq s v))
     else Ok view) = Ok view' /\
    rectangular view' = true /\
    map fst view' = map fst view /\
    records view' = filter (fun r => negb active || field_is label v r) (records view).
Proof.
  intros Hr Hcol. destruct active; simpl.
  - destruct (proj1 (has_column_get_col label view) (Hcol eq_refl)) as [s Hs].
    unfold getitem. rewrite Hs. simpl.
    exists (boolean_index view (series_eq s v)). split; [reflexivity|].
    split; [now apply rectangular_boolean_index|].
    split; [apply labels_boolean_index|].
    unfold series_eq.
    replace (map (eq_scalar v) s)
      with (map (field_is label v) (records view)).
    + apply (records_filter_records (field_is label v) view Hr).
    + symmetry. unfold field_is.
      rewrite <- (mask_of_column
                    (fun oc => match oc with
                               | Some (Some w) => value_eqb w v
                               | _ => false
                               end) label view s Hr Hs).
      apply map_ext. intros [w|]; reflexivity.
  - exists view. repeat split; auto.
    symmetry. apply forallb_filter_id. apply forallb_forall. auto.
Qed.

Lemma has_location_col (df : DataFrame) :
  has_column Country df || has_column Location df = true ->
  has_column (location_col df) df = true.
Proof.
  unfold location_col. destruct (has_column Country df) eqn:E; auto.
Qed.

Lemma filter_filter {A : Type} (p q : A -> bool) (l : list A) :
  filter q (filter p l) = filter (fun a => p a && q a) l.
Proof.
  induction l as [|a l IH]; simpl; auto.
  destruct (p a); simpl; [destruct (q a)|]; now rewrite IH.
Qed.

(** The three statements of the filter, as one test on the records. *)
Lemma filtered_df_records (df : DataFrame) (f : FilterSpec) :
  rectangular df = true -> numeric_year df = true ->
  exists view,
    filtered_df df f = Ok view /\
    rectangular view = true /\
    map fst view = map fst df /\
    records view
    = filter (fun r =>
                year_in_range (fst (year_range f)) (snd (year_range f)) r
                && (negb (has_column Operator df
                          && negb (value_eqb (selected_operator f) All))
                    || field_is Operator (selected_operator f) r)
                && (negb ((has_column Country df || has_column Location df)
                          && negb (value_eqb (selected_location f) All))
                    || field_is (location_col df) (selected_location f) r))
             (records df).
Proof.
  intros Hr Hn. unfold filtered_df.
  rewrite (filter_years_records df f Hr Hn). simpl.
  set (p1 := year_in_range (fst (year_range f)) (snd (year_range f))).
  set (v1 := filter_records p1 df).
  assert (Hr1 : rectangular v1 = true) by now apply rectangular_boolean_index.
  assert (Hl1 : map fst v1 = map fst df) by apply labels_boolean_index.
  destruct (filter_equal_records
              (has_column Operator df && negb (value_eqb (selected_operator f) All))
              Operator (selected_operator f) v1 Hr1)
    as (v2 & Hv2 & Hr2 & Hl2 & Hrec2).
  { intros Ha. apply andb_prop in Ha as [Ha _].
    now rewrite (has_column_labels Operator _ _ Hl1). }
  unfold filter_operator. rewrite Hv2. simpl.
  destruct (filter_equal_records
              ((has_column Country df || has_column Location df)
               && negb (value_eqb (selected_location f) All))
              (location_col df) (selected_location f) v2 Hr2)
    as (v3 & Hv3 & Hr3 & Hl3 & Hrec3).
  { intros Ha. apply andb_prop in Ha as [Ha _].
    rewrite (has_column_labels _ v2 df) by congruence.
    now apply has_location_col. }
  unfold filter_location. rewrite Hv3.
  exists v3. split; [reflexivity|]. split; [exact Hr3|].
  split; [congruence|].
  rewrite Hrec3, Hrec2. unfold v1. rewrite (records_filter_records p1 df Hr).
  rewrite !filter_filter. apply filter_ext. intros r. apply andb_assoc.
Qed.

Lemma filtered_df_numeric_year (df : DataFrame) (f : FilterSpec) (view : DataFrame) :
  filtered_df df f = Ok view -> numeric_year df = true.
Proof.
  unfold filtered_df, filter_years, getitem, numeric_year.
  destruct (get_col Year df) as [ys|]; simpl; [|discriminate].
  destruct (series_ge ys (fst (year_range f))) as [m|] eqn:E; simpl; [|discriminate].
  intros _. eapply series_ge_returns; eauto.
Qed.

End Filter.

(** C1. The filtered view: on a frame with a numeric [Year] column the
    filter returns, keeps the columns, and the records of the view are the
    records of the frame, in their order, that satisfy the conjunction of the
    year bounds (a null year fails them), the operator choice unless it is
    ['All'], and the location choice unless it is ['All']; an empty view is
    returned like any other. *)
Theorem C1_filtered_view (df : DataFrame) (w : Widgets) :
  rectangular df = true -> numeric_year df = true ->
  exists view,
    filtered_df df (sidebar df w) = Ok view /\
    map fst view = map fst df /\
    records view = filter (satisfies (location_col df) (sidebar df w)) (records df).
Proof.
  intros Hr Hn.
  destruct (filtered_df_records df (sidebar df w) Hr Hn) as (view & Hv & _ & Hl & Hrec).
  exists view. split; [exact Hv|]. split; [exact Hl|].
  rewrite Hrec. apply filter_ext. intros r. unfold satisfies. simpl.
  destruct (has_column Operator df); simpl;
    destruct (has_column Country df || has_column Location df); simpl;
    rewrite ?negb_involutive; reflexivity.
Qed.

Lemma C1_filtered_view_witness :
  exists view,
    filtered_df (preprocess_data three_crashes)
                (sidebar (preprocess_data three_crashes) years_2000_2010) = Ok view /\
    map fst view = map fst (preprocess_data three_crashes) /\
    records view
    = filter (satisfies (location_col (preprocess_data three_crashes))
                        (sidebar (preprocess_data three_crashes) years_2000_2010))
             (records (preprocess_data three_crashes)).
Proof.
  apply (C1_filtered_view (preprocess_data three_crashes) years_2000_2010);
    reflexivity.
Defined.

(** ** Sorting *)

Section Sorting.

Context {A : Type}.

Lemma insert_sorted_perm (leb : A -> A -> bool) (x : A) (l : list A) :
  Permutation (insert_sorted leb x l) (x :: l).
Proof.
  induction l as [|y l IH]; simpl; auto.
  destruct (leb x y); auto.
  rewrite IH. apply perm_swap.
Qed.

Lemma stable_sort_perm (leb : A -> A -> bool) (l : list A) :
  Permutation (stable_sort leb l) l.
Proof.
  induction l as [|x l IH]; simpl; auto.
  rewrite insert_sorted_perm. now constructor.
Qed.

Lemma StronglySorted_app (R : A -> A -> Prop) (l1 l2 : list A) :
  StronglySorted R l1 -> StronglySorted R l2 ->
  (forall a b, In a l1 -> In b l2 -> R a b) ->
  StronglySorted R (l1 ++ l2).
Proof.
  intros H1 H2 H. induction l1 as [|x l1 IH]; simpl; auto.
  apply StronglySorted_inv in H1 as [H1 Hx].
  constructor.
  - apply IH; auto. intros a b Ha Hb. apply H; simpl; auto.
  - apply Forall_app. split; auto.
    apply Forall_forall. intros b Hb. apply H; simpl; auto.
Qed.

Lemma StronglySorted_rev (R : A -> A -> Prop) (l : list A) :
  StronglySorted R l -> StronglySorted (fun a b => R b a) (rev l).
Proof.
  induction 1 as [|x l Hl IH Hx]; simpl; [constructor|].
  apply StronglySorted_app; auto.
  - repeat constructor.
  - intros a b Ha [<-|[]]. rewrite Forall_forall in Hx.
    apply Hx. now apply in_rev.
Qed.

Lemma StronglySorted_firstn (R : A -> A -> Prop) (n : nat) : forall l,
  StronglySorted R l -> StronglySorted R (firstn n l).
Proof.
  induction n as [|n IH]; intros l H; simpl; [constructor|].
  destruct l as [|x l]; [constructor|].
  apply StronglySorted_inv in H as [H Hx]. constructor; auto.
  rewrite Forall_forall in *. intros a Ha. apply Hx.
  rewrite <- (firstn_skipn n l). apply in_or_app. now left.
Qed.

Lemma StronglySorted_weaken (R R' : A -> A -> Prop) (l : list A) :
  (forall a b, R a b -> R' a b) -> StronglySorted R l -> StronglySorted R' l.
Proof.
  intros HR. induction 1 as [|x l Hl IH Hx]; constructor; auto.
  eapply Forall_impl; [|exact Hx]. intros b. apply HR.
Qed.

Lemma StronglySorted_map {B : Type} (g : B -> A) (R : A -> A -> Prop) (l : list B) :
  StronglySorted R (map g l) -> StronglySorted (fun a b => R (g a) (g b)) l.
Proof.
  induction l as [|x l IH]; simpl; intros H; [constructor|].
  apply StronglySorted_inv in H as [H Hx]. constructor; auto.
  now rewrite Forall_map in Hx.
Qed.

Lemma StronglySorted_any (l : list A) :
  StronglySorted (fun _ _ => True) l.
Proof.
  induction l; constructor; auto. apply Forall_forall. auto.
Qed.

Lemma StronglySorted_map_intro {B : Type} (g : B -> A) (R : A -> A -> Prop)
      (l : list B) :
  StronglySorted (fun a b => R (g a) (g b)) l -> StronglySorted R (map g l).
Proof.
  induction 1 as [|x l Hl IH Hx]; simpl; constructor; auto.
  now rewrite Forall_map.
Qed.

Lemma StronglySorted_app_inv (R : A -> A -> Prop) (l1 l2 : list A) :
  StronglySorted R (l1 ++ l2) ->
  forall a b, In a l1 -> In b l2 -> R a b.
Proof.
  induction l1 as [|x l1 IH]; simpl; intros H a b Ha Hb; [contradiction|].
  apply StronglySorted_inv in H as [H Hx].
  destruct Ha as [<-|Ha].
  - rewrite Forall_forall in Hx. apply Hx. apply in_or_app. now right.
  - now apply IH.
Qed.

End Sorting.

Section SortValues.

Context {K : Type}.

Variable before : K * nat -> K * nat -> Prop.

(** Ascending by count; among equal counts, the order is the one of the
    list being sorted, read backwards. *)
Let ascending (a b : K * nat) : Prop :=
  (snd a < snd b)%nat \/ (snd a = snd b /\ before b a).

Let by_count (a b : K * nat) : bool := (snd a <=? snd b)%nat.

Lemma insert_sorted_ascending (x : K * nat) (l : list (K * nat)) :
  StronglySorted ascending l -> Forall (fun y => before y x) l ->
  StronglySorted ascending (insert_sorted by_count x l).
Proof.
  induction l as [|y l IH]; simpl; intros Hs Hx.
  - repeat constructor.
  - apply StronglySorted_inv in Hs as [Hs Hy].
    apply Forall_cons_iff in Hx as [Hyx Hx].
    unfold by_count at 1. destruct (Nat.leb_spec (snd x) (snd y)) as [Hle|Hlt].
    + constructor; [constructor; auto|].
      assert (Hxy : ascending x y).
      { unfold ascending.
        destruct (Nat.eq_dec (snd x) (snd y)); [right|left]; auto. lia. }
      constructor; auto.
      rewrite Forall_forall in *. intros z Hz.
      specialize (Hy z Hz). specialize (Hx z Hz).
      assert (Hyz : (snd y <= snd z)%nat) by (destruct Hy as [?|[? _]]; lia).
      unfold ascending.
      destruct (Nat.eq_dec (snd x) (snd z)); [right|left]; auto. lia.
    + constructor; auto.
      eapply Permutation_Forall.
      * symmetry. apply insert_sorted_perm.
      * constructor; auto. unfold ascending. left. exact Hlt.
Qed.

Lemma stable_sort_ascending (l : list (K * nat)) :
  StronglySorted (fun a b => before b a) l ->
  StronglySorted ascending (stable_sort by_count l).
Proof.
  induction 1 as [|x l Hl IH Hx]; simpl; [constructor|].
  apply insert_sorted_ascending; auto.
  eapply Permutation_Forall; [symmetry; apply stable_sort_perm|]. exact Hx.
Qed.

(** The order taken for the descending sort leaves equal counts as they
    were. *)
Lemma sort_values_descending_sorted (l : list (K * nat)) :
  StronglySorted before l ->
  StronglySorted (fun a b => (snd b < snd a)%nat \/ (snd a = snd b /\ before a b))
                 (sort_values_descending l).
Proof.
  intros H. unfold sort_values_descending.
  apply StronglySorted_rev in H. apply stable_sort_ascending in H.
  apply StronglySorted_rev in H.
  eapply StronglySorted_weaken; [|exact H].
  unfold ascending. intros a b [Hlt|[Heq Hb]]; [left|right]; auto.
Qed.

Lemma sort_values_descending_perm (l : list (K * nat)) :
  Permutation (sort_values_descending l) l.
Proof.
  unfold sort_values_descending.
  rewrite <- Permutation_rev, stable_sort_perm, <- Permutation_rev. reflexivity.
Qed.

Lemma total_count_perm (l l' : list (K * nat)) :
  Permutation l l' -> total_count l = total_count l'.
Proof.
  unfold total_count. induction 1; simpl; lia.
Qed.

End SortValues.

(** ** Counting *)

Section Counting.

Lemma value_eqb_eq (a b : value) : value_eqb a b = true <-> a = b.
Proof.
  unfold value_eqb. destruct (value_eq_dec a b); split; auto; discriminate.
Qed.

Lemma total_count_incr (v : value) (tbl : list (value * nat)) :
  total_count (incr v tbl) = S (total_count tbl).
Proof.
  unfold total_count. induction tbl as [|[k c] tbl IH]; simpl; auto.
  destruct (value_eqb k v); simpl; lia.
Qed.

Lemma total_count_fold (s : Series) : forall tbl,
  total_count (fold_left count_cell s tbl) = (total_count tbl + series_count s)%nat.
Proof.
  unfold series_count.
  induction s as [|[v|] s IH]; intros tbl; simpl; auto.
  - rewrite IH, total_count_incr. lia.
Qed.

Lemma value_counts_total (s : Series) :
  total_count (value_counts s) = series_count s.
Proof.
  unfold value_counts.
  rewrite (total_count_perm _ _ (sort_values_descending_perm _)).
  unfold value_counts_arraylike. now rewrite total_count_fold.
Qed.

Lemma sort_index_total (l : list (value * nat)) :
  total_count (sort_index l) = total_count l.
Proof.
  apply total_count_perm. apply stable_sort_perm.
Qed.

Lemma incr_old (v : value) (tbl : list (value * nat)) :
  In v (map fst tbl) -> map fst (incr v tbl) = map fst tbl.
Proof.
  induction tbl as [|[k c] tbl IH]; simpl; [tauto|].
  intros H. destruct (value_eqb k v) eqn:E; simpl; auto.
  f_equal. apply IH. destruct H as [H|H]; auto.
  apply value_eqb_eq in H. congruence.
Qed.

Lemma incr_new (v : value) (tbl : list (value * nat)) :
  ~ In v (map fst tbl) -> incr v tbl = tbl ++ [(v, 1%nat)].
Proof.
  induction tbl as [|[k c] tbl IH]; simpl; auto.
  intros H. destruct (value_eqb k v) eqn:E.
  - apply value_eqb_eq in E. tauto.
  - f_equal. apply IH. tauto.
Qed.

Lemma In_incr (v k : value) (c : nat) (tbl : list (value * nat)) :
  NoDup (map fst tbl) -> In (k, c) (incr v tbl) ->
  (k <> v /\ In (k, c) tbl) \/
  (k = v /\ ((exists c0, In (v, c0) tbl /\ c = S c0) \/
             (~ In v (map fst tbl) /\ c = 1%nat))).
Proof.
  induction tbl as [|[k0 c0] tbl IH]; simpl; intros Hnd H.
  - destruct H as [[= <- <-]|[]]. right. split; auto.
  - apply NoDup_cons_iff in Hnd as [Hk0 Hnd].
    destruct (value_eqb k0 v) eqn:E.
    + apply value_eqb_eq in E. subst k0.
      destruct H as [[= <- <-]|H].
      * right. split; auto. left. exists c0. auto.
      * left. split; auto. intros ->. apply Hk0.
        change v with (fst (v, c)). now apply in_map.
    + assert (Hne : k0 <> v).
      { intros ->. unfold value_eqb in E. destruct (value_eq_dec v v); congruence. }
      destruct H as [[= <- <-]|H]; [left; auto|].
      destruct (IH Hnd H) as [[Hkv Hin]|[-> [(c1 & Hin & ->)|[Hnin ->]]]].
      * left. auto.
      * right. split; auto. left. exists c1. auto.
      * right. split; auto. right. split; auto. tauto.
Qed.

Lemma frequency_snoc (k : value) (s : Series) (c : cell) :
  frequency k (s ++ [c])
  = (frequency k s + (if cell_eq_dec c (Some k) then 1 else 0))%nat.
Proof.
  unfold frequency. rewrite count_occ_app. simpl.
  destruct (cell_eq_dec c (Some k)); reflexivity.
Qed.

Lemma first_seen_app (v : value) (s t : Series) :
  In (Some v) s -> first_seen v (s ++ t) = first_seen v s.
Proof.
  induction s as [|c s IH]; simpl; [tauto|].
  intros H. destruct (cell_eq_dec c (Some v)); auto.
  f_equal. apply IH. destruct H; congruence.
Qed.

Lemma first_seen_lt (v : value) (s : Series) :
  In (Some v) s -> (first_seen v s < length s)%nat.
Proof.
  induction s as [|c s IH]; simpl; [tauto|].
  intros H. destruct (cell_eq_dec c (Some v)); [lia|].
  apply -> Nat.succ_lt_mono. apply IH. destruct H; congruence.
Qed.

Lemma first_seen_new (v : value) (s : Series) :
  ~ In (Some v) s -> first_seen v (s ++ [Some v]) = length s.
Proof.
  induction s as [|c s IH]; simpl; intros H.
  - destruct (cell_eq_dec (Some v) (Some v)) as [|Hne]; [reflexivity|].
    exfalso. now apply Hne.
  - destruct (cell_eq_dec c (Some v)); [tauto|]. f_equal. apply IH. tauto.
Qed.

Lemma In_keys (k : value) (tbl : list (value * nat)) :
  In k (map fst tbl) <-> exists c, In (k, c) tbl.
Proof.
  rewrite in_map_iff. split.
  - intros ([k' c] & <- & H). eauto.
  - intros (c & H). exists (k, c). auto.
Qed.

Lemma first_seen_sorted_app (s t : Series) (keys : list value) :
  (forall a, In a keys -> In (Some a) s) ->
  StronglySorted (fun a b => (first_seen a s < first_seen b s)%nat) keys ->
  StronglySorted (fun a b => (first_seen a (s ++ t) < first_seen b (s ++ t))%nat) keys.
Proof.
  intros Hin Hs. induction Hs as [|a l Hl IH Ha]; constructor.
  - apply IH. intros b Hb. apply Hin. now right.
  - rewrite Forall_forall in *. intros b Hb.
    rewrite !first_seen_app; auto; apply Hin; simpl; auto.
Qed.

Lemma counted_null (s : Series) (tbl : list (value * nat)) :
  counted s tbl -> counted (s ++ [None]) tbl.
Proof.
  intros (Hnd & Hc & Hk & Hs). split; [exact Hnd|]. split; [|split].
  - intros k c H. destruct (Hc k c H) as [-> Hin]. split.
    + rewrite frequency_snoc. destruct (cell_eq_dec None (Some k)); [discriminate|lia].
    + apply in_or_app. now left.
  - intros v H. apply in_app_or in H. destruct H as [H|H]; auto.
    simpl in H. destruct H as [H|H]; [discriminate|contradiction].
  - assert (Hin : forall a, In a (map fst tbl) -> In (Some a) s).
    { intros a Ha. apply In_keys in Ha as [c Ha]. now apply (Hc a c). }
    now apply first_seen_sorted_app.
Qed.

Lemma counted_value (s : Series) (tbl : list (value * nat)) (v : value) :
  counted s tbl -> counted (s ++ [Some v]) (incr v tbl).
Proof.
  intros (Hnd & Hc & Hk & Hs).
  assert (Hin : forall a, In a (map fst tbl) -> In (Some a) s).
  { intros a Ha. apply In_keys in Ha as [c Ha]. now apply (Hc a c). }
  assert (Hsorted : StronglySorted
                      (fun a b => (first_seen a (s ++ [Some v])
                                   < first_seen b (s ++ [Some v]))%nat)
                      (map fst tbl)).
  { now apply first_seen_sorted_app. }
  assert (Hcount : forall k c, In (k, c) (incr v tbl) ->
                     c = frequency k (s ++ [Some v]) /\ In (Some k) (s ++ [Some v])).
  { intros k c H. rewrite frequency_snoc.
    destruct (In_incr v k c tbl Hnd H)
      as [[Hne Hi]|[-> [(c0 & Hi & ->)|[Hnin ->]]]].
    - destruct (Hc k c Hi) as [-> Hks]. split.
      + destruct (cell_eq_dec (Some v) (Some k)); [congruence|lia].
      + apply in_or_app. now left.
    - destruct (Hc v c0 Hi) as [-> Hks]. split.
      + destruct (cell_eq_dec (Some v) (Some v)); [lia|congruence].
      + apply in_or_app. now left.
    - split.
      + destruct (cell_eq_dec (Some v) (Some v)); [|congruence].
        assert (Hz : frequency v s = 0%nat).
        { apply count_occ_not_In. intros Hvs. apply Hnin. now apply Hk. }
        lia.
      + apply in_or_app. right. now left. }
  destruct (in_dec value_eq_dec v (map fst tbl)) as [Hold|Hnew].
  - split; [now rewrite incr_old|]. split; [exact Hcount|]. split.
    + rewrite incr_old by auto. intros w H.
      apply in_app_or in H. destruct H as [H|H]; auto.
      simpl in H. destruct H as [[= ->]|H]; [auto|contradiction].
    + now rewrite incr_old.
  - rewrite (incr_new v tbl Hnew) in *.
    assert (Hvs : ~ In (Some v) s) by (intros H; apply Hnew; now apply Hk).
    unfold counted. rewrite map_app. simpl.
    split; [|split; [exact Hcount|split]].
    + apply NoDup_app; auto.
      * repeat constructor. simpl. tauto.
      * intros a Ha [<-|[]]. contradiction.
    + intros w H. apply in_or_app.
      apply in_app_or in H. destruct H as [H|H]; [left; auto|].
      simpl in H. destruct H as [[= ->]|H]; [right; now left|contradiction].
    + apply StronglySorted_app; auto.
      * repeat constructor.
      * intros a b Ha [<-|[]].
        rewrite first_seen_new by auto.
        rewrite first_seen_app by auto. apply first_seen_lt. auto.
Qed.

(** The counting pass counts. *)
Lemma value_counts_arraylike_counted (s : Series) :
  counted s (value_counts_arraylike s).
Proof.
  unfold value_counts_arraylike.
  induction s as [|c s IH] using rev_ind.
  - unfold counted. simpl. split; [constructor|].
    split; [tauto|]. split; [tauto|constructor].
  - rewrite fold_left_app. simpl. destruct c as [v|]; simpl.
    + now apply counted_value.
    + now apply counted_null.
Qed.

Lemma In_dropna (v : value) (s : Series) : In v (dropna s) <-> In (Some v) s.
Proof.
  unfold dropna. rewrite in_flat_map. split.
  - intros ([w|] & Hin & H); simpl in H; [|tauto].
    destruct H as [->|[]]. exact Hin.
  - intros H. exists (Some v). simpl. auto.
Qed.

Lemma value_counts_arraylike_length (s : Series) :
  length (value_counts_arraylike s) = distinct_values s.
Proof.
  destruct (value_counts_arraylike_counted s) as (Hnd & Hc & Hk & _).
  unfold distinct_values. rewrite <- (length_map fst).
  apply Permutation_length. apply NoDup_Permutation; auto.
  - apply NoDup_nodup.
  - intros v. rewrite nodup_In, In_dropna. split; auto.
    intros H. apply In_keys in H as [c H]. now apply (Hc v c).
Qed.

Lemma value_counts_length (s : Series) :
  length (value_counts s) = distinct_values s.
Proof.
  unfold value_counts.
  rewrite (Permutation_length (sort_values_descending_perm _)).
  apply value_counts_arraylike_length.
Qed.

Lemma value_counts_entries (s : Series) (k : value) (c : nat) :
  In (k, c) (value_counts s) -> c = frequency k s /\ In (Some k) s.
Proof.
  intros H. destruct (value_counts_arraylike_counted s) as (_ & Hc & _).
  apply Hc. eapply Permutation_in; [apply sort_values_descending_perm|exact H].
Qed.

(** The descending sort leaves the counts in decreasing order, whatever it
    does of equal counts. *)
Lemma sort_values_descending_by_count {K : Type} (l : list (K * nat)) :
  StronglySorted (fun a b => (snd b <= snd a)%nat) (sort_values_descending l).
Proof.
  eapply StronglySorted_weaken;
    [|apply (sort_values_descending_sorted (fun _ _ => True));
      apply StronglySorted_any].
  simpl. intros a b [H|[H _]]; lia.
Qed.

(** The order the model takes is one the sort may give. *)
Lemma value_counts_sorted_counts (s : Series) : sorted_counts s (value_counts s).
Proof.
  split.
  - apply sort_values_descending_perm.
  - apply sort_values_descending_by_count.
Qed.

(** Whatever the order among equal counts, the outcome has one line per
    distinct non-null value, with its frequency. *)
Lemma sorted_counts_lines (s : Series) (tbl : list (value * nat)) :
  sorted_counts s tbl ->
  length tbl = distinct_values s /\
  NoDup (map fst tbl) /\
  (forall k c, In (k, c) tbl -> c = frequency k s /\ In (Some k) s) /\
  (forall v, In (Some v) s -> In (v, frequency v s) tbl).
Proof.
  intros [Hp _].
  destruct (value_counts_arraylike_counted s) as (Hnd & Hc & Hk & _).
  split; [|split; [|split]].
  - rewrite (Permutation_length Hp). apply value_counts_arraylike_length.
  - eapply Permutation_NoDup; [|exact Hnd].
    apply Permutation_map. now symmetry.
  - intros k c Hin. apply Hc. eapply Permutation_in; eauto.
  - intros v Hv. apply Hk, In_keys in Hv as [c Hin].
    destruct (Hc v c Hin) as [-> _].
    eapply Permutation_in; [symmetry; exact Hp|exact Hin].
Qed.

End Counting.

(** C8, as the claim has it, fails: among equally frequent values the order
    is the sort's, and the sort, pandas' quicksort, is not stable.  Of two
    operators with one crash each the one met second may head the ranking:
    both orders are outcomes the sort may give, so the order of ties is
    neither the order of first encounter nor determined. *)
Lemma C8_tie_order_is_open :
  sorted_counts tied_operators [(VStr "O03", 1%nat); (VStr "O02", 1%nat)] /\
  sorted_counts tied_operators [(VStr "O02", 1%nat); (VStr "O03", 1%nat)] /\
  (first_seen (VStr "O03") tied_operators
   < first_seen (VStr "O02") tied_operators)%nat /\
  ~ StronglySorted (ranks_before tied_operators)
      (head 10 [(VStr "O02", 1%nat); (VStr "O03", 1%nat)]) /\
  ~ (forall s tbl n, sorted_counts s tbl ->
       StronglySorted (ranks_before s) (head n tbl)).
Proof.
  assert (H1 : sorted_counts tied_operators
                 [(VStr "O03", 1%nat); (VStr "O02", 1%nat)]).
  { split; [reflexivity|]. repeat constructor. }
  assert (H2 : sorted_counts tied_operators
                 [(VStr "O02", 1%nat); (VStr "O03", 1%nat)]).
  { split; [apply perm_swap|]. repeat constructor. }
  assert (H3 : ~ StronglySorted (ranks_before tied_operators)
                   (head 10 [(VStr "O02", 1%nat); (VStr "O03", 1%nat)])).
  { intros H. apply StronglySorted_inv in H as [_ H].
    apply Forall_inv in H. vm_compute in H.
    destruct H as [H|[_ H]]; inversion H as [|? H']; inversion H'. }
  split; [exact H1|]. split; [exact H2|]. split; [|split].
  - vm_compute. constructor.
  - exact H3.
  - intros H. exact (H3 (H _ _ 10%nat H2)).
Qed.

(** C8, amended.  The ranking of a column is the head of the counts of its
    values by decreasing count.  Whatever the order the sort leaves among
    equal counts, the ranking has as many lines as the column has distinct
    non-null values, up to [n]; no value has two lines; every line carries
    the frequency of its value; frequencies never increase down the ranking;
    and the lines kept are the most frequent: a value of the column that has
    no line is no more frequent than any value that has one.  The order
    among equally frequent values is left open. *)
Theorem C8_top_categories (view : DataFrame) (col : string) (n : nat) (s : Series) :
  get_col col view = Some s ->
  (exists tbl, sorted_counts s tbl /\ top_categories view col n = Ok (head n tbl)) /\
  forall tbl, sorted_counts s tbl ->
    length (head n tbl) = Nat.min n (distinct_values s) /\
    NoDup (map fst (head n tbl)) /\
    Forall (fun e => snd e = frequency (fst e) s /\ In (Some (fst e)) s) (head n tbl) /\
    StronglySorted (fun a b => (snd b <= snd a)%nat) (head n tbl) /\
    (forall v e, In (Some v) s -> ~ In v (map fst (head n tbl)) ->
                 In e (head n tbl) -> (frequency v s <= snd e)%nat).
Proof.
  intros Hs. split.
  - exists (value_counts s). split; [apply value_counts_sorted_counts|].
    unfold top_categories, getitem. now rewrite Hs.
  - intros tbl Hsc.
    destruct (sorted_counts_lines s tbl Hsc) as (Hlen & Hnd & Hc & Hall).
    destruct Hsc as [_ Hsorted]. unfold head.
    assert (Hin : forall e, In e (firstn n tbl) -> In e tbl).
    { intros e He. rewrite <- (firstn_skipn n tbl). apply in_or_app. now left. }
    split; [|split; [|split; [|split]]].
    + now rewrite length_firstn, Hlen.
    + rewrite <- (firstn_skipn n tbl), map_app in Hnd.
      now apply NoDup_app_remove_r in Hnd.
    + apply Forall_forall. intros [k c] He. simpl. now apply Hc, Hin.
    + now apply StronglySorted_firstn.
    + intros v e Hv Hnot He.
      pose proof (Hall v Hv) as Hline.
      rewrite <- (firstn_skipn n tbl) in Hline, Hsorted.
      apply in_app_or in Hline. destruct Hline as [Hline|Hline].
      * exfalso. apply Hnot.
        change v with (fst (v, frequency v s)). now apply in_map.
      * exact (StronglySorted_app_inv _ _ _ Hsorted e (v, frequency v s) He Hline).
Qed.

Lemma C8_top_categories_witness :
  (exists tbl,
     sorted_counts [Some (VStr "Aeroflot"); Some (VStr "Pan Am"); Some (VStr "Aeroflot")] tbl /\
     top_categories crashes Operator 1 = Ok (head 1 tbl)) /\
  forall tbl,
    sorted_counts [Some (VStr "Aeroflot"); Some (VStr "Pan Am"); Some (VStr "Aeroflot")] tbl ->
    length (head 1 tbl)
    = Nat.min 1 (distinct_values
                   [Some (VStr "Aeroflot"); Some (VStr "Pan Am"); Some (VStr "Aeroflot")]) /\
    NoDup (map fst (head 1 tbl)) /\
    Forall (fun e => snd e = frequency (fst e)
                       [Some (VStr "Aeroflot"); Some (VStr "Pan Am"); Some (VStr "Aeroflot")] /\
                     In (Some (fst e))
                       [Some (VStr "Aeroflot"); Some (VStr "Pan Am"); Some (VStr "Aeroflot")])
           (head 1 tbl) /\
    StronglySorted (fun a b => (snd b <= snd a)%nat) (head 1 tbl) /\
    (forall v e,
       In (Some v) [Some (VStr "Aeroflot"); Some (VStr "Pan Am"); Some (VStr "Aeroflot")] ->
       ~ In v (map fst (head 1 tbl)) ->
       In e (head 1 tbl) ->
       (frequency v [Some (VStr "Aeroflot"); Some (VStr "Pan Am"); Some (VStr "Aeroflot")]
        <= snd e)%nat).
Proof.
  apply (C8_top_categories crashes Operator 1). reflexivity.
Defined.

(** C10. Rankings skip nulls: in the operator ranking and in the location
    ranking every line names a value some record holds and counts exactly
    the records that hold it, so a null is no line and a record with a null
    in the ranked column is counted nowhere; all lines together count the
    non-null cells of the column. *)
Theorem C10_rankings_skip_nulls (view : DataFrame) (n : nat) (s : Series) :
  (get_col Operator view = Some s ->
   exists top, top_operators n view = Ok (Some top) /\
               counts_occurrences s top /\
               (total_count top <= series_count s)%nat /\
               total_count (value_counts s) = series_count s) /\
  (has_column Country view || has_column Location view = true ->
   get_col (location_col view) view = Some s ->
   exists top, Top_locations n view = Ok (Some top) /\
               counts_occurrences s top /\
               (total_count top <= series_count s)%nat /\
               total_count (value_counts s) = series_count s).
Proof.
  assert (Hgen : forall col, get_col col view = Some s ->
            top_categories view col n = Ok (head n (value_counts s)) /\
            counts_occurrences s (head n (value_counts s)) /\
            (total_count (head n (value_counts s)) <= series_count s)%nat /\
            total_count (value_counts s) = series_count s).
  { intros col Hs. unfold top_categories, getitem. rewrite Hs. simpl.
    split; [reflexivity|]. split; [|split].
    - intros v c Hin. apply and_comm. apply value_counts_entries.
      unfold head in Hin.
      rewrite <- (firstn_skipn n (value_counts s)). apply in_or_app. now left.
    - rewrite <- value_counts_total. unfold head, total_count.
      rewrite <- (firstn_skipn n (value_counts s)) at 2.
      rewrite map_app, list_sum_app. lia.
    - apply value_counts_total. }
  split.
  - intros Hs. destruct (Hgen _ Hs) as (Htop & Hrest).
    exists (head n (value_counts s)). split; [|exact Hrest].
    unfold top_operators.
    rewrite (proj2 (has_column_get_col Operator view)) by eauto.
    now rewrite Htop.
  - intros Hloc Hs. destruct (Hgen _ Hs) as (Htop & Hrest).
    exists (head n (value_counts s)). split; [|exact Hrest].
    unfold Top_locations. rewrite Hloc. now rewrite Htop.
Qed.

Lemma C10_rankings_skip_nulls_witness :
  exists top,
    top_operators 10 [(Operator, [None; Some (VStr "Pan Am"); None])] = Ok (Some top) /\
    counts_occurrences [None; Some (VStr "Pan Am"); None] top /\
    (total_count top <= series_count [None; Some (VStr "Pan Am"); None])%nat /\
    total_count (value_counts [None; Some (VStr "Pan Am"); None])
    = series_count [None; Some (VStr "Pan Am"); None].
Proof.
  apply (proj1 (C10_rankings_skip_nulls
                  [(Operator, [None; Some (VStr "Pan Am"); None])] 10
                  [None; Some (VStr "Pan Am"); None])).
  reflexivity.
Defined.

(** ** The decade column *)

Section DecadeColumn.

Lemma decade_of_numbers (ys : Series) :
  Forall (fun c => exists y, c = Some (VNum y)) ys ->
  mapM decade_of ys = Ok (map decade_cell ys).
Proof.
  induction 1 as [|c ys [y ->] Hys IH]; simpl; auto.
  now rewrite IH.
Qed.

Lemma series_count_numbers (ys : Series) :
  Forall (fun c => exists y, c = Some (VNum y)) ys ->
  series_count ys = length ys /\ series_count (map decade_cell ys) = length ys.
Proof.
  unfold series_count.
  induction 1 as [|c ys [y ->] Hys [IH1 IH2]]; simpl; auto.
Qed.


(** The years of a filtered view: every record has one, a number. *)
Lemma view_years (df : DataFrame) (f : FilterSpec) (view : DataFrame) :
  rectangular df = true -> filtered_df df f = Ok view ->
  rectangular view = true /\ map fst view = map fst df /\
  exists ys, get_col Year view = Some ys /\ length ys = len view /\
             Forall (fun c => exists y, c = Some (VNum y)) ys.
Proof.
  intros Hr Hv.
  pose proof (filtered_df_numeric_year df f view Hv) as Hn.
  destruct (filtered_df_records df f Hr Hn) as (view0 & Hv0 & Hr0 & Hl0 & Hrec).
  rewrite Hv in Hv0. injection Hv0 as <-.
  split; [exact Hr0|]. split; [exact Hl0|].
  assert (Hy : has_column Year view = true).
  { rewrite (has_column_labels Year view df Hl0).
    unfold numeric_year in Hn. apply has_column_get_col.
    destruct (get_col Year df); [eauto|discriminate]. }
  apply has_column_get_col in Hy as [ys Hys].
  exists ys. split; [exact Hys|].
  pose proof (get_col_length Year view ys Hr0 Hys) as Hlen.
  split; [exact Hlen|].
  apply Forall_forall. intros c Hc.
  apply (In_nth _ _ None) in Hc as (i & Hi & <-).
  assert (Hin : In (row_at view i) (records view)).
  { apply In_records. exists i. split; [|reflexivity].
    rewrite <- Hlen. exact Hi. }
  rewrite Hrec in Hin. apply filter_In in Hin as [_ Hsat].
  apply andb_prop in Hsat as [Hsat _]. apply andb_prop in Hsat as [Hsat _].
  unfold year_in_range in Hsat. rewrite field_row_at, Hys in Hsat. simpl in Hsat.
  assert (Hnumber : forall c : cell,
            match c with
            | Some (VNum y) => (fst (year_range f) <=? y) && (y <=? snd (year_range f))
            | _ => false
            end = true -> exists y, c = Some (VNum y)).
  { intros [[y| |]|]; try discriminate. eauto. }
  exact (Hnumber _ Hsat).
Qed.

End DecadeColumn.



(** C7, as the claim has it, fails: a frame that brings its own [Decade]
    column keeps it, and a record whose decade is blank is counted under its
    year and under no decade. *)
Lemma C7_own_decade_loses_a_record :
  filtered_df (preprocess_data own_decade) (sidebar (preprocess_data own_decade) all_years)
  = Ok own_decade /\
  crashes_per_year own_decade = Ok [(VNum 1990, 1%nat); (VNum 1991, 1%nat)] /\
  add_decade own_decade = Ok own_decade /\
  crashes_by_decade own_decade = Ok [(VNum 1990, 1%nat)] /\
  total_count [(VNum 1990, 1%nat); (VNum 1991, 1%nat)] = 2%nat /\
  total_count [(VNum 1990, 1%nat)] = 1%nat.
Proof.
  repeat split; reflexivity.
Qed.

(** C7, amended.  When the frame brings no [Decade] column, the counts by
    decade and the counts by year of a filtered view have the same sum, the
    number of records of the view. *)
Theorem C7_decade_counts_total (df : DataFrame) (f : FilterSpec) (view : DataFrame) :
  rectangular df = true -> has_column Decade df = false ->
  filtered_df df f = Ok view ->
  exists py view' pd,
    crashes_per_year view = Ok py /\
    add_decade view = Ok view' /\
    crashes_by_decade view' = Ok pd /\
    total_count pd = total_count py /\
    total_count py = len view.
Proof.
  intros Hr Hd Hv.
  destruct (view_years df f view Hr Hv) as (Hrv & Hl & ys & Hys & Hlen & Hnum).
  assert (Hdv : has_column Decade view = false)
    by now rewrite (has_column_labels Decade view df Hl).
  destruct (series_count_numbers ys Hnum) as [Hcy Hcd].
  exists (sort_index (value_counts ys)),
         (setitem Decade (map decade_cell ys) view),
         (sort_index (value_counts (map decade_cell ys))).
  unfold crashes_per_year, add_decade, crashes_by_decade, getitem.
  rewrite Hdv, Hys. simpl.
  rewrite (decade_of_numbers ys Hnum). simpl.
  rewrite get_col_setitem_same. simpl.
  repeat split.
  - rewrite !sort_index_total, !value_counts_total. congruence.
  - rewrite sort_index_total, value_counts_total. congruence.
Qed.

Lemma C7_decade_counts_total_witness :
  exists py view' pd,
    crashes_per_year view_2000_2010 = Ok py /\
    add_decade view_2000_2010 = Ok view' /\
    crashes_by_decade view' = Ok pd /\
    total_count pd = total_count py /\
    total_count py = len view_2000_2010.
Proof.
  apply (C7_decade_counts_total crashes (sidebar crashes years_2000_2010));
    reflexivity.
Defined.

(** ** The empty view *)

Section EmptyView.

Variable view : DataFrame.
Hypothesis Hempty : no_rows view.

Lemma getitem_no_rows (label : string) :
  has_column label view = true -> getitem label view = Ok [].
Proof.
  intros H. apply has_column_get_col in H as [s Hs].
  unfold getitem. rewrite Hs.
  apply get_col_In in Hs. apply Hempty in Hs. simpl in Hs. now subst.
Qed.

Lemma total_fatalities_no_rows :
  total_fatalities view
  = Ok (if has_column Fatalities view then Num (inject_Z 0) else NA).
Proof.
  unfold total_fatalities.
  destruct (has_column Fatalities view) eqn:E; auto.
  now rewrite (getitem_no_rows _ E).
Qed.

Lemma avg_fatalities_no_rows :
  avg_fatalities view = Ok (if has_column Fatalities view then NaN else NA).
Proof.
  unfold avg_fatalities.
  destruct (has_column Fatalities view) eqn:E; auto.
  now rewrite (getitem_no_rows _ E).
Qed.

End EmptyView.

Section EmptyViewMetrics.

Lemma avg_per_year_no_rows (view : DataFrame) (f : FilterSpec) :
  len view = 0%nat ->
  exists q, avg_per_year view f = Ok q /\ (q == 0)%Q.
Proof.
  intros H. unfold avg_per_year, truediv. rewrite H.
  destruct (0 <? years_span f) eqn:E.
  - apply Z.ltb_lt in E.
    destruct (years_span f =? 0) eqn:E0; [apply Z.eqb_eq in E0; lia|].
    eexists. split; [reflexivity|]. simpl. unfold Qdiv. apply Qmult_0_l.
  - exists 0%Q. split; reflexivity.
Qed.

Lemma no_rows_of_len (view : DataFrame) :
  rectangular view = true -> len view = 0%nat -> no_rows view.
Proof.
  intros Hr H c Hc. rewrite rectangular_spec in Hr.
  specialize (Hr c Hc). rewrite H in Hr. now apply length_zero_iff_nil.
Qed.

Lemma has_column_setitem (label other : string) (s : Series) (view : DataFrame) :
  has_column label (setitem other s view)
  = has_column label view || String.eqb label other.
Proof.
  induction view as [|[n s0] cols IH]; simpl.
  - now rewrite orb_false_r.
  - destruct (String.eqb other n) eqn:E; simpl.
    + apply String.eqb_eq in E. subst n.
      destruct (String.eqb label other), (has_column label cols); reflexivity.
    + rewrite IH.
      destruct (String.eqb label n), (has_column label cols),
        (String.eqb label other); reflexivity.
Qed.

End EmptyViewMetrics.

(** C5. The empty view: when the filter leaves no record, the key metrics
    are computed without anything being raised; the total is 0, the average
    per year is 0 whatever the span of years the slider gives, since the
    division is guarded by the span being positive, and the fatalities are 0
    in total and [nan] on average, the mean of nothing being [nan] and no
    division by zero (["N/A"] for both without the column). *)
Theorem C5_empty_view (df : DataFrame) (f : FilterSpec) (view : DataFrame) :
  rectangular df = true -> filtered_df df f = Ok view -> len view = 0%nat ->
  exists m,
    summary_metrics view f = Ok m /\
    total_crashes m = 0%nat /\
    (avg_crashes_per_year m == 0)%Q /\
    (fatalities_total m = if has_column Fatalities df then Num (inject_Z 0) else NA) /\
    (fatalities_avg m = if has_column Fatalities df then NaN else NA).
Proof.
  intros Hr Hv Hlen.
  destruct (view_years df f view Hr Hv) as (Hrv & Hl & _).
  pose proof (no_rows_of_len view Hrv Hlen) as He.
  destruct (avg_per_year_no_rows view f Hlen) as (q & Hq & Hq0).
  exists {| total_crashes := 0;
            avg_crashes_per_year := q;
            fatalities_total := if has_column Fatalities df then Num (inject_Z 0) else NA;
            fatalities_avg := if has_column Fatalities df then NaN else NA |}.
  split; [|simpl; auto].
  unfold summary_metrics.
  rewrite Hq, (total_fatalities_no_rows view He), (avg_fatalities_no_rows view He).
  simpl. rewrite Hlen, (has_column_labels Fatalities view df Hl). reflexivity.
Qed.

Lemma C5_empty_view_witness :
  filtered_df crashes (sidebar crashes years_2020_2021) = Ok no_crash /\
  exists m,
    summary_metrics no_crash (sidebar crashes years_2020_2021) = Ok m /\
    total_crashes m = 0%nat /\
    (avg_crashes_per_year m == 0)%Q /\
    (fatalities_total m
     = if has_column Fatalities crashes then Num (inject_Z 0) else NA) /\
    (fatalities_avg m = if has_column Fatalities crashes then NaN else NA).
Proof.
  split; [reflexivity|].
  apply (C5_empty_view crashes (sidebar crashes years_2020_2021) no_crash);
    reflexivity.
Defined.

(** ** The table of missing values *)

Section MissingValues.

Lemma inject_Z_succ (z : Z) : (inject_Z (z + 1) == inject_Z z + 1)%Q.
Proof. rewrite inject_Z_plus. reflexivity. Qed.

Lemma isnull_count (s : Series) : length (filter is_null s) = null_count s.
Proof.
  unfold null_count. induction s as [|[v|] s IH]; simpl.
  - reflexivity.
  - destruct (cell_eq_dec (Some v) None); [discriminate|exact IH].
  - destruct (cell_eq_dec None None) as [|Hne]; [now rewrite IH|].
    exfalso. now apply Hne.
Qed.

Lemma null_count_le (s : Series) : (null_count s <= length s)%nat.
Proof. apply count_occ_bound. Qed.

Lemma missing_values_perm (view : DataFrame) :
  Permutation (missing_values view) (columns_with_nulls view).
Proof.
  unfold missing_values, columns_with_nulls, isnull_sum.
  rewrite sort_values_descending_perm.
  erewrite map_ext; [reflexivity|].
  intros c. simpl. now rewrite isnull_count.
Qed.

Lemma missing_values_sorted (view : DataFrame) :
  StronglySorted (fun a b => (snd b <= snd a)%nat) (missing_values view).
Proof.
  unfold missing_values.
  eapply StronglySorted_weaken;
    [|apply (sort_values_descending_sorted (fun _ _ => True));
      apply StronglySorted_any].
  simpl. intros a b [H|[H _]]; lia.
Qed.

Lemma In_columns_with_nulls (view : DataFrame) (e : string * nat) :
  In e (columns_with_nulls view) <->
  exists c, In c view /\ e = (fst c, null_count (snd c)) /\ (0 < snd e)%nat.
Proof.
  unfold columns_with_nulls. rewrite filter_In, in_map_iff. split.
  - intros ((c & <- & Hc) & Hpos). exists c. repeat split; auto.
    now apply Nat.ltb_lt.
  - intros (c & Hc & -> & Hpos). split; [eauto|]. now apply Nat.ltb_lt.
Qed.

End MissingValues.

(** C9, as the claim has it, fails: the percentage is computed in
    doubles.  With 23 nulls in 160 rows the quotient times 100 is 14.375,
    which to two decimal places is 14.38; the product of the doubles falls
    short of 14.375, that is 115 / 8, and the table shows 14.37, the double
    of 1437 hundredths. *)
Lemma C9_percentage_in_doubles :
  missing_df_float64 operator_gaps
  = Some [ {| line_column := Operator;
              line_missing_count := 23;
              line_percentage := np.hundredths 1437 |} ] /\
  PrimFloat.ltb
    (PrimFloat.mul (PrimFloat.div (np.float64 23) (np.float64 160)) (np.float64 100))
    (PrimFloat.div (np.float64 115) (np.float64 8)) = true /\
  (exact_percentage 23 160 == 14375 # 1000)%Q /\
  (round2 (exact_percentage 23 160) == 1438 # 100)%Q /\
  percentage_float64 23 160 <> np.hundredths 1438.
Proof.
  split; [vm_compute; reflexivity|].
  split; [vm_compute; reflexivity|].
  split; [reflexivity|].
  split; [reflexivity|].
  intros H.
  assert (E : PrimFloat.eqb (percentage_float64 23 160) (np.hundredths 1438) = true).
  { rewrite H. vm_compute. reflexivity. }
  vm_compute in E. discriminate E.
Qed.

(** C9, amended.  The table of missing values: there is none exactly when
    no column of the view has a null; otherwise its lines are the columns
    with at least one null, one line each with the number of nulls, by
    decreasing number of nulls; the number of a line is positive and at most
    the number of rows, and its percentage is the double that numpy computes
    from it: the number over the number of rows, times 100, then to two
    decimal places as numpy rounds, that is multiplied by 100, rounded to
    the nearest whole number and divided by 100, every step being rounded to
    a double. *)
Theorem C9_missing_report (view : DataFrame) :
  rectangular view = true ->
  (missing_df_float64 view = None <->
   forall c, In c view -> null_count (snd c) = 0%nat) /\
  forall rows, missing_df_float64 view = Some rows ->
    Permutation (map (fun r => (line_column r, line_missing_count r)) rows)
                (columns_with_nulls view) /\
    StronglySorted (fun a b => (line_missing_count b <= line_missing_count a)%nat)
                   rows /\
    Forall (fun r =>
              (0 < line_missing_count r <= len view)%nat /\
              line_percentage r
              = percentage_float64 (line_missing_count r) (len view))
           rows.
Proof.
  intros Hr.
  pose proof (missing_values_perm view) as Hperm.
  set (mk := fun e : string * nat =>
               {| line_column := fst e; line_missing_count := snd e;
                  line_percentage := percentage_float64 (snd e) (len view) |}).
  assert (Hdf : missing_df_float64 view
                = if (0 <? length (missing_values view))%nat
                  then Some (map mk (missing_values view)) else None)
    by reflexivity.
  split.
  - rewrite Hdf. split.
    + intros Hnone c Hc.
      destruct (Nat.ltb_spec 0 (length (missing_values view))) as [|Hz];
        [discriminate|].
      destruct (Nat.eq_dec (null_count (snd c)) 0) as [|Hpos]; auto.
      assert (Hin : In (fst c, null_count (snd c)) (columns_with_nulls view)).
      { apply In_columns_with_nulls. exists c. simpl. repeat split; auto. lia. }
      apply (Permutation_in _ (Permutation_sym Hperm)) in Hin.
      destruct (missing_values view); [contradiction|simpl in Hz; lia].
    + intros Hall.
      destruct (missing_values view) as [|e mv] eqn:E; [reflexivity|].
      exfalso.
      assert (Hin : In e (columns_with_nulls view)).
      { apply (Permutation_in _ Hperm). now left. }
      apply In_columns_with_nulls in Hin as (c & Hc & -> & Hpos).
      simpl in Hpos. rewrite (Hall c Hc) in Hpos. lia.
  - intros rows Hrows. rewrite Hdf in Hrows.
    destruct (0 <? length (missing_values view))%nat; [|discriminate].
    injection Hrows as <-. split; [|split].
    + rewrite map_map. simpl. rewrite map_ext with (g := fun e => e).
      * now rewrite map_id.
      * now intros [n c].
    + apply StronglySorted_map_intro. simpl. apply missing_values_sorted.
    + apply Forall_forall. intros r Hin.
      apply in_map_iff in Hin as (e & <- & He). simpl.
      apply (Permutation_in _ Hperm) in He.
      apply In_columns_with_nulls in He as (c & Hc & -> & Hpos). simpl in *.
      split; [|reflexivity].
      split; [exact Hpos|].
      rewrite rectangular_spec in Hr. rewrite <- (Hr c Hc).
      apply null_count_le.
Qed.

Lemma C9_missing_report_witness :
  (missing_df_float64 operator_gaps = None <->
   forall c, In c operator_gaps -> null_count (snd c) = 0%nat) /\
  forall rows, missing_df_float64 operator_gaps = Some rows ->
    Permutation (map (fun r => (line_column r, line_missing_count r)) rows)
                (columns_with_nulls operator_gaps) /\
    StronglySorted (fun a b => (line_missing_count b <= line_missing_count a)%nat)
                   rows /\
    Forall (fun r =>
              (0 < line_missing_count r <= len operator_gaps)%nat /\
              line_percentage r
              = percentage_float64 (line_missing_count r) (len operator_gaps))
           rows.
Proof.
  apply (C9_missing_report operator_gaps). reflexivity.
Defined.

(** ** Scenarios *)

(** Three crashes in 1990, 1990 and 2005 with fatalities 10, null and 5:
    the fill turns the null into 10. *)
Example scenario_forward_fill :
  get_col Fatalities crashes = Some [Some (VNum 10); Some (VNum 10); Some (VNum 5)].
Proof. reflexivity. Qed.

Example scenario_counts_by_year :
  crashes_per_year crashes = Ok [(VNum 1990, 2%nat); (VNum 2005, 1%nat)].
Proof. reflexivity. Qed.

Example scenario_fatalities :
  total_fatalities crashes = Ok (Num (inject_Z 25)).
Proof. reflexivity. Qed.

(** The years 2000 to 2010 leave the crash of 2005, counted under 2000. *)
Example scenario_years_2000_2010 :
  filtered_df crashes (sidebar crashes years_2000_2010) = Ok view_2000_2010 /\
  (view' <- add_decade view_2000_2010 ;; crashes_by_decade view')
  = Ok [(VNum 2000, 1%nat)].
Proof. split; reflexivity. Qed.

(** * Further properties of the script *)

(** ** The shape of the preprocessed frame *)

Section PreprocessShape.

Lemma labels_setitem (label : string) (s : Series) (df : DataFrame) :
  map fst (setitem label s df)
  = if has_column label df then map fst df else map fst df ++ [label].
Proof.
  induction df as [|[n s0] df IH]; simpl; auto.
  destruct (String.eqb label n) eqn:E; simpl; auto.
  rewrite IH. now destruct (has_column label df).
Qed.

Lemma In_setitem (label : string) (s : Series) (df : DataFrame) (c : string * Series) :
  In c (setitem label s df) -> In c df \/ snd c = s.
Proof.
  induction df as [|[n s0] df IH]; simpl.
  - intros [<-|[]]. now right.
  - destruct (String.eqb label n); simpl.
    + intros [<-|H]; auto.
    + intros [<-|H]; auto. destruct (IH H); auto.
Qed.

Lemma len_setitem_same (label : string) (s : Series) (df : DataFrame) :
  df <> [] -> length s = len df -> len (setitem label s df) = len df.
Proof.
  destruct df as [|[n s0] df]; [congruence|]. simpl. intros _ H.
  now destruct (String.eqb label n).
Qed.

Lemma rectangular_setitem (label : string) (s : Series) (df : DataFrame) :
  df <> [] -> length s = len df -> rectangular df = true ->
  rectangular (setitem label s df) = true.
Proof.
  intros Hne Hs Hr. rewrite rectangular_spec in *. intros c Hc.
  rewrite (len_setitem_same _ _ _ Hne Hs).
  destruct (In_setitem _ _ _ _ Hc) as [H| ->]; auto.
Qed.

Lemma to_datetime_coerce_length (ys : Series) : forall ms ds n,
  length ys = n -> length ms = n -> length ds = n ->
  length (to_datetime_coerce ys ms ds) = n.
Proof.
  induction ys as [|y ys IH]; intros [|m ms] [|d ds] n Hy Hm Hd; simpl in *;
    try congruence.
  destruct n as [|n]; [discriminate|]. f_equal. apply IH; congruence.
Qed.

Lemma rectangular_derive_date (df : DataFrame) :
  rectangular df = true ->
  rectangular (derive_date df) = true /\ len (derive_date df) = len df.
Proof.
  intros Hr. unfold derive_date.
  destruct (get_col Year df) as [ys|] eqn:HY; auto.
  destruct (get_col Month df) as [ms|] eqn:HM; auto.
  destruct (get_col Day df) as [ds|] eqn:HD; auto.
  assert (Hne : df <> []) by (intros ->; discriminate).
  assert (Hlen : length (to_datetime_coerce ys ms ds) = len df).
  { apply to_datetime_coerce_length; eapply get_col_length; eauto. }
  split; [now apply rectangular_setitem | now apply len_setitem_same].
Qed.

Lemma len_fillna_ffill (df : DataFrame) : len (fillna_ffill df) = len df.
Proof.
  destruct df as [|[n s] df]; simpl; auto. apply ffill_from_length.
Qed.

Lemma rectangular_fillna_ffill (df : DataFrame) :
  rectangular df = true -> rectangular (fillna_ffill df) = true.
Proof.
  rewrite !rectangular_spec. intros H c Hc. rewrite len_fillna_ffill.
  unfold fillna_ffill in Hc. apply in_map_iff in Hc as ([n s] & <- & Hin).
  simpl. unfold ffill. rewrite ffill_from_length. exact (H _ Hin).
Qed.

Lemma labels_derive_date (df : DataFrame) :
  map fst (derive_date df)
  = if has_date_fields df && negb (has_column Date df)
    then map fst df ++ [Date] else map fst df.
Proof.
  unfold derive_date, has_date_fields.
  destruct (get_col Year df) as [ys|] eqn:HY;
    [|apply has_column_false in HY; now rewrite HY].
  assert (Hy : has_column Year df = true) by (apply has_column_get_col; eauto).
  rewrite Hy.
  destruct (get_col Month df) as [ms|] eqn:HM;
    [|apply has_column_false in HM; now rewrite HM].
  assert (Hm : has_column Month df = true) by (apply has_column_get_col; eauto).
  rewrite Hm.
  destruct (get_col Day df) as [ds|] eqn:HD;
    [|apply has_column_false in HD; now rewrite HD].
  assert (Hd : has_column Day df = true) by (apply has_column_get_col; eauto).
  rewrite Hd. simpl. rewrite labels_setitem.
  now destruct (has_column Date df).
Qed.

(** No null below a value in a filled column. *)
Lemma ffill_from_value (s : Series) : forall v i,
  (i < length s)%nat -> nth i (ffill_from (Some v) s) None <> None.
Proof.
  induction s as [|[w|] s IH]; intros v i Hi; simpl in *; [lia| |];
    destruct i as [|i]; try discriminate; apply IH; lia.
Qed.

Lemma ffill_from_nulls_on_top (s : Series) : forall last i j,
  (i <= j)%nat -> (j < length s)%nat ->
  nth i (ffill_from last s) None <> None ->
  nth j (ffill_from last s) None <> None.
Proof.
  induction s as [|c s IH]; intros last i j Hij Hj Hi; simpl in Hj; [lia|].
  destruct j as [|j]; [replace i with 0%nat in Hi by lia; exact Hi|].
  destruct c as [v|]; simpl in *.
  - apply ffill_from_value. lia.
  - destruct last as [v|]; [apply ffill_from_value; lia|].
    destruct i as [|i]; [congruence|].
    apply (IH None i j); auto; lia.
Qed.

End PreprocessShape.

(** X1. The preprocessor keeps the shape of the frame: the result is
    rectangular with as many rows, and its columns are those of the input in
    their order, with [Date] added last when the three source columns exist
    and the input has no [Date] column (an existing one is overwritten in
    place). *)
Theorem X1_preprocess_keeps_shape (df : DataFrame) :
  rectangular df = true ->
  rectangular (preprocess_data df) = true /\
  len (preprocess_data df) = len df /\
  length (records (preprocess_data df)) = length (records df) /\
  map fst (preprocess_data df)
  = if has_date_fields df && negb (has_column Date df)
    then map fst df ++ [Date] else map fst df.
Proof.
  intros Hr. destruct (rectangular_derive_date df Hr) as [Hrd Hld].
  unfold preprocess_data.
  assert (Hlen : len (fillna_ffill (derive_date df)) = len df)
    by now rewrite len_fillna_ffill.
  split; [now apply rectangular_fillna_ffill|].
  split; [exact Hlen|]. split; [now rewrite !length_records|].
  unfold fillna_ffill. rewrite map_map. simpl.
  apply labels_derive_date.
Qed.

Lemma X1_preprocess_keeps_shape_witness :
  rectangular (preprocess_data april_31) = true /\
  len (preprocess_data april_31) = len april_31 /\
  length (records (preprocess_data april_31)) = length (records april_31) /\
  map fst (preprocess_data april_31)
  = if has_date_fields april_31 && negb (has_column Date april_31)
    then map fst april_31 ++ [Date] else map fst april_31.
Proof.
  apply (X1_preprocess_keeps_shape april_31). reflexivity.
Defined.

(** X2. After preprocessing the nulls of a column sit on top of it: below
    a cell that holds a value every cell holds one; a column whose first
    cell holds a value has no null at all. *)
Theorem X2_nulls_on_top (df : DataFrame) (label : string) (s : Series) (i j : nat) :
  get_col label (preprocess_data df) = Some s ->
  (i <= j)%nat -> (j < length s)%nat ->
  is_null (nth i s None) = false -> is_null (nth j s None) = false.
Proof.
  unfold preprocess_data, fillna_ffill. rewrite get_col_map.
  destruct (get_col label (derive_date df)) as [s0|]; simpl; [|discriminate].
  intros [= <-] Hij Hj Hi. unfold ffill in *. rewrite ffill_from_length in Hj.
  pose proof (ffill_from_nulls_on_top s0 None i j Hij Hj) as H.
  destruct (nth j (ffill_from None s0) None); [reflexivity|].
  exfalso. apply H; [|reflexivity].
  destruct (nth i (ffill_from None s0) None); discriminate.
Qed.

Lemma X2_nulls_on_top_witness :
  is_null (nth 1 [Some (VNum 10); Some (VNum 10); Some (VNum 5)] None) = false.
Proof.
  apply (X2_nulls_on_top three_crashes Fatalities _ 0 1);
    [reflexivity|lia|simpl; lia|reflexivity].
Defined.

(** ** When the filter returns, and what it raises *)

Section FilterOutcome.

Lemma series_ge_text (k : Z) (s : Series) :
  forallb is_number s = false -> series_ge s k = Raise TypeError.
Proof.
  unfold series_ge. induction s as [|c s IH]; simpl; [discriminate|].
  destruct c as [[z| |]|]; simpl; auto; intros H; now rewrite (IH H).
Qed.

Lemma numeric_year_view (ys : Series) :
  Forall (fun c => exists y, c = Some (VNum y)) ys -> forallb is_number ys = true.
Proof.
  induction 1 as [|c ys [y ->] Hys IH]; simpl; auto.
Qed.

End FilterOutcome.

(** X3. The filter returns exactly on the frames that have a [Year] column
    holding numbers and nulls only.  Without the column it raises
    [KeyError] on ['Year']; with a cell of text or a date in the column it
    raises [TypeError], whatever the rest of the specification. *)
Theorem X3_filter_outcome (df : DataFrame) (f : FilterSpec) :
  rectangular df = true ->
  ((exists view, filtered_df df f = Ok view) <-> numeric_year df = true) /\
  (get_col Year df = None -> filtered_df df f = Raise (KeyError Year)) /\
  (forall ys, get_col Year df = Some ys -> forallb is_number ys = false ->
              filtered_df df f = Raise TypeError).
Proof.
  intros Hr. split; [|split].
  - split.
    + intros [view Hv]. exact (filtered_df_numeric_year df f view Hv).
    + intros Hn. destruct (filtered_df_records df f Hr Hn) as (view & Hv & _).
      eauto.
  - intros HY. unfold filtered_df, filter_years, getitem. now rewrite HY.
  - intros ys HY Hn. unfold filtered_df, filter_years, getitem. rewrite HY. simpl.
    now rewrite (series_ge_text _ _ Hn).
Qed.

Lemma X3_filter_outcome_witness :
  ((exists view, filtered_df text_year (sidebar text_year all_years) = Ok view)
   <-> numeric_year text_year = true) /\
  (get_col Year text_year = None ->
   filtered_df text_year (sidebar text_year all_years) = Raise (KeyError Year)) /\
  (forall ys, get_col Year text_year = Some ys -> forallb is_number ys = false ->
              filtered_df text_year (sidebar text_year all_years) = Raise TypeError).
Proof.
  apply (X3_filter_outcome text_year (sidebar text_year all_years)). reflexivity.
Defined.

(** ** Frames with the same records *)

Section FrameExtensionality.

Lemma frame_ext_rows (n : nat) (a : DataFrame) : forall b,
  (forall c, In c a -> length (snd c) = n) ->
  (forall c, In c b -> length (snd c) = n) ->
  map fst a = map fst b ->
  (forall i, (i < n)%nat -> row_at a i = row_at b i) ->
  a = b.
Proof.
  induction a as [|[l s] a IH]; intros [|[l' s'] b] Ha Hb Hl Hrow;
    simpl in Hl; try discriminate; auto.
  injection Hl as <- Hl.
  pose proof (Ha (l, s) (or_introl eq_refl)) as Hs. simpl in Hs.
  pose proof (Hb (l, s') (or_introl eq_refl)) as Hs'. simpl in Hs'.
  f_equal.
  - f_equal. apply (nth_ext _ _ None None).
    + transitivity n; [exact Hs|symmetry; exact Hs'].
    + intros i Hi. assert (Hin : (i < n)%nat) by (rewrite <- Hs; exact Hi).
      clear Hi. rename Hin into Hi.
      specialize (Hrow i Hi). simpl in Hrow. now injection Hrow.
  - apply IH; auto.
    + intros c Hc. apply Ha. now right.
    + intros c Hc. apply Hb. now right.
    + intros i Hi. specialize (Hrow i Hi). simpl in Hrow. now injection Hrow.
Qed.

(** A rectangular frame is its labels and its records. *)
Lemma frame_ext (a b : DataFrame) :
  rectangular a = true -> rectangular b = true ->
  map fst a = map fst b -> records a = records b -> a = b.
Proof.
  intros Ha Hb Hl Hrec.
  assert (Hlen : len a = len b) by now rewrite <- !length_records, Hrec.
  rewrite rectangular_spec in Ha, Hb. rewrite <- Hlen in Hb.
  apply (frame_ext_rows (len a)); auto.
  intros i Hi. unfold records in Hrec. rewrite <- Hlen in Hrec.
  apply (proj1 map_ext_in_iff Hrec). apply in_seq. lia.
Qed.

Lemma location_col_labels (a b : DataFrame) :
  map fst a = map fst b -> location_col a = location_col b.
Proof.
  intros H. unfold location_col. now rewrite (has_column_labels Country a b H).
Qed.

Lemma filter_narrow {A : Type} (p q : A -> bool) (l : list A) :
  (forall a, q a = true -> p a = true) -> filter q (filter p l) = filter q l.
Proof.
  intros H. rewrite filter_filter. apply filter_ext. intros a.
  destruct (q a) eqn:E; [now rewrite (H a E)|now rewrite andb_false_r].
Qed.

End FrameExtensionality.

(** X4. Refining a filter: when the year range of [g] lies within that of
    [f] and both make the same operator and location choice, filtering the
    view of [f] with [g] gives what filtering the frame with [g] gives; in
    particular filtering a view again with its own specification returns
    the view unchanged. *)
Theorem X4_filter_refines (df : DataFrame) (f g : FilterSpec) (view : DataFrame) :
  rectangular df = true -> filtered_df df f = Ok view ->
  fst (year_range f) <= fst (year_range g) ->
  snd (year_range g) <= snd (year_range f) ->
  selected_operator g = selected_operator f ->
  selected_location g = selected_location f ->
  filtered_df view g = filtered_df df g /\ filtered_df view f = Ok view.
Proof.
  intros Hr Hv Hlo Hhi Hop Hloc.
  pose proof (filtered_df_numeric_year df f view Hv) as Hn.
  destruct (view_years df f view Hr Hv) as (Hrv & Hl & ys & Hys & _ & Hnum).
  assert (Hnv : numeric_year view = true).
  { unfold numeric_year. rewrite Hys. now apply numeric_year_view. }
  destruct (filtered_df_records df f Hr Hn) as (v0 & Hv0 & _ & _ & Hrec).
  rewrite Hv in Hv0. injection Hv0 as <-.
  assert (Hre : forall h w,
             selected_operator h = selected_operator f ->
             selected_location h = selected_location f ->
             fst (year_range f) <= fst (year_range h) ->
             snd (year_range h) <= snd (year_range f) ->
             filtered_df df h = Ok w -> filtered_df view h = Ok w).
  { intros h w Ho Hc Hl1 Hl2 Hw.
    destruct (filtered_df_records df h Hr Hn) as (w0 & Hw0 & Hrw & Hlw & Hrecw).
    rewrite Hw in Hw0. injection Hw0 as <-.
    destruct (filtered_df_records view h Hrv Hnv) as (w' & Hw' & Hrw' & Hlw' & Hrecw').
    rewrite Hw'. f_equal. apply frame_ext; auto; [congruence|].
    rewrite Hrecw', Hrecw, Hrec.
    rewrite !(has_column_labels _ view df Hl), (location_col_labels view df Hl).
    apply filter_narrow. intros r Hsat. rewrite Ho, Hc in Hsat.
    apply andb_prop in Hsat as [Hsat H3]. apply andb_prop in Hsat as [H1 H2].
    rewrite H2, H3, !andb_true_r.
    unfold year_in_range in *.
    destruct (field Year r) as [[[y| |]|]|]; try discriminate.
    apply andb_prop in H1 as [Ha Hb]. apply Z.leb_le in Ha, Hb.
    apply andb_true_intro. split; apply Z.leb_le; lia. }
  split.
  - pose proof (filtered_df_numeric_year df f view Hv) as Hn'.
    destruct (filtered_df_records df g Hr Hn) as (w & Hw & _).
    rewrite Hw. apply Hre; auto.
  - apply Hre; auto; lia.
Qed.

Lemma X4_filter_refines_witness :
  filtered_df view_2000_2010 (sidebar crashes years_2000_2010)
  = filtered_df crashes (sidebar crashes years_2000_2010) /\
  filtered_df view_2000_2010 (sidebar crashes years_2000_2010) = Ok view_2000_2010.
Proof.
  apply (X4_filter_refines crashes (sidebar crashes years_2000_2010)
                           (sidebar crashes years_2000_2010) view_2000_2010);
    try reflexivity; simpl; lia.
Defined.

(** X5. Nothing is filtered out by default: with both choices at ['All']
    and a year range that holds every year of the frame, none of them null,
    the view is the frame itself. *)
Theorem X5_wide_filter_keeps_all (df : DataFrame) (f : FilterSpec) (ys : Series) :
  rectangular df = true -> get_col Year df = Some ys ->
  forallb (year_cell (fst (year_range f)) (snd (year_range f))) ys = true ->
  selected_operator f = All -> selected_location f = All ->
  filtered_df df f = Ok df.
Proof.
  intros Hr HY Hall Hop Hloc.
  assert (Hn : numeric_year df = true).
  { unfold numeric_year. rewrite HY. rewrite forallb_forall in *.
    intros c Hc. specialize (Hall c Hc). now destruct c as [[z| |]|]. }
  destruct (filtered_df_records df f Hr Hn) as (view & Hv & Hrv & Hl & Hrec).
  rewrite Hv. f_equal. apply frame_ext; auto.
  rewrite Hrec. rewrite Hop, Hloc. apply forallb_filter_id.
  apply forallb_forall. intros r Hin.
  apply In_records in Hin as (i & Hi & ->).
  change (value_eqb All All) with true. simpl. rewrite !andb_false_r. simpl.
  rewrite !andb_true_r, year_in_range_field, field_row_at, HY. simpl.
  rewrite forallb_forall in Hall. apply Hall. apply nth_In.
  apply (Nat.lt_le_trans _ _ _ Hi). apply Nat.eq_le_incl. symmetry.
  exact (get_col_length Year df ys Hr HY).
Qed.

Lemma X5_wide_filter_keeps_all_witness :
  filtered_df crashes (sidebar crashes all_years) = Ok crashes.
Proof.
  apply (X5_wide_filter_keeps_all crashes (sidebar crashes all_years)
           [Some (VNum 1990); Some (VNum 1990); Some (VNum 2005)]);
    reflexivity.
Defined.

(** ** The average per year *)

(** X6. The average per year never divides by zero and stays within
    bounds: it is [0] when the span of the slider is not positive; with a
    positive span it lies between 0 and the number of records, and it is 0
    only for the view without records. *)
Theorem X6_avg_per_year (view : DataFrame) (f : FilterSpec) :
  exists q,
    avg_per_year view f = Ok q /\
    (0 <= q <= inject_Z (Z.of_nat (len view)))%Q /\
    (years_span f <= 0 -> q = 0%Q) /\
    (0 < years_span f -> ((q == 0)%Q <-> len view = 0%nat)).
Proof.
  unfold avg_per_year, truediv.
  destruct (Z.ltb_spec 0 (years_span f)) as [Hpos|Hneg].
  - destruct (Z.eqb_spec (years_span f) 0) as [Hz|Hnz]; [lia|].
    eexists. split; [reflexivity|].
    assert (Hs : (1 <= inject_Z (years_span f))%Q).
    { change 1%Q with (inject_Z 1). rewrite <- Zle_Qle. lia. }
    assert (Hl : (0 <= inject_Z (Z.of_nat (len view)))%Q).
    { change 0%Q with (inject_Z 0). rewrite <- Zle_Qle. lia. }
    split; [split|split].
    + apply Qle_shift_div_l; lra.
    + apply Qle_shift_div_r; [lra|].
      apply Qle_trans with (inject_Z (Z.of_nat (len view)) * 1)%Q.
      * rewrite Qmult_1_r. apply Qle_refl.
      * apply Qmult_le_compat_nonneg; split; lra.
    + lia.
    + intros _. split.
      * intros H0.
        assert (Hz : (inject_Z (Z.of_nat (len view)) == 0)%Q).
        { rewrite <- (Qmult_div_r (inject_Z (Z.of_nat (len view)))
                                  (inject_Z (years_span f))) by lra.
          rewrite H0. ring. }
        apply (proj1 (inject_Z_injective (Z.of_nat (len view)) 0)) in Hz.
        apply Nat2Z.inj. exact Hz.
      * intros ->. simpl. unfold Qdiv. apply Qmult_0_l.
  - exists 0%Q. split; [reflexivity|]. split; [|split; [reflexivity|lia]].
    split; [lra|]. change 0%Q with (inject_Z 0). rewrite <- Zle_Qle. lia.
Qed.

(** ** Counts by year and by decade *)

Section Trends.

Lemma frequency_filter (k : value) (s : Series) :
  frequency k s = length (filter (eq_scalar k) s).
Proof.
  unfold frequency. induction s as [|c s IH]; simpl; auto.
  destruct (cell_eq_dec c (Some k)) as [->|Hne]; simpl.
  - rewrite (proj2 (value_eqb_eq k k) eq_refl). simpl. now rewrite IH.
  - destruct c as [w|]; simpl; auto.
    destruct (value_eqb w k) eqn:E; auto.
    apply value_eqb_eq in E. congruence.
Qed.

Lemma length_filter_masks {A B : Type} (p : A -> bool) (q : B -> bool) (l : list A) :
  forall l', map p l = map q l' -> length (filter p l) = length (filter q l').
Proof.
  induction l as [|a l IH]; intros [|b l'] H; simpl in *; try discriminate; auto.
  injection H as Hab H. rewrite <- Hab. destruct (p a); simpl; auto.
Qed.

(** The frequency of a value in a column is a number of records. *)
Lemma frequency_records (view : DataFrame) (label : string) (s : Series) (k : value) :
  rectangular view = true -> get_col label view = Some s ->
  frequency k s = length (filter (field_is label k) (records view)).
Proof.
  intros Hr Hs. rewrite frequency_filter. apply length_filter_masks.
  unfold field_is.
  rewrite <- (mask_of_column
                (fun oc => match oc with
                           | Some (Some w) => value_eqb w k
                           | _ => false
                           end) label view s Hr Hs).
  apply map_ext. intros [w|]; reflexivity.
Qed.

Lemma insert_sorted_sorted {A : Type} (leb : A -> A -> bool) (P : A -> Prop)
      (x : A) (l : list A) :
  (forall a b, P a -> P b -> leb a b = false -> leb b a = true) ->
  (forall a b c, P a -> P b -> P c ->
                 leb a b = true -> leb b c = true -> leb a c = true) ->
  P x -> Forall P l ->
  StronglySorted (fun a b => leb a b = true) l ->
  StronglySorted (fun a b => leb a b = true) (insert_sorted leb x l).
Proof.
  intros Htot Htr Hx. induction l as [|y l IH]; simpl; intros HP Hs.
  - repeat constructor.
  - apply Forall_cons_iff in HP as [Hy HP].
    apply StronglySorted_inv in Hs as [Hs Hyl].
    destruct (leb x y) eqn:E.
    + constructor; [constructor; auto|]. constructor; auto.
      rewrite Forall_forall in *. intros z Hz. eapply Htr; eauto.
    + constructor; auto.
      eapply Permutation_Forall; [symmetry; apply insert_sorted_perm|].
      constructor; auto.
Qed.

Lemma stable_sort_sorted {A : Type} (leb : A -> A -> bool) (P : A -> Prop)
      (l : list A) :
  (forall a b, P a -> P b -> leb a b = false -> leb b a = true) ->
  (forall a b c, P a -> P b -> P c ->
                 leb a b = true -> leb b c = true -> leb a c = true) ->
  Forall P l ->
  StronglySorted (fun a b => leb a b = true) (stable_sort leb l).
Proof.
  intros Htot Htr. induction 1 as [|x l Hx HP IH]; simpl; [constructor|].
  apply (insert_sorted_sorted leb P); auto.
  eapply Permutation_Forall; [symmetry; apply stable_sort_perm|]. exact HP.
Qed.

Lemma StronglySorted_distinct {A B : Type} (g : A -> B) (R : A -> A -> Prop)
      (l : list A) :
  StronglySorted R l -> NoDup (map g l) ->
  StronglySorted (fun a b => R a b /\ g a <> g b) l.
Proof.
  induction 1 as [|x l Hl IH Hx]; simpl; intros Hnd; [constructor|].
  apply NoDup_cons_iff in Hnd as [Hnin Hnd]. constructor; auto.
  rewrite Forall_forall in *. intros y Hy. split; auto.
  intros Heq. apply Hnin. rewrite Heq. now apply in_map.
Qed.

Lemma StronglySorted_weaken_on {A : Type} (P : A -> Prop) (R R' : A -> A -> Prop)
      (l : list A) :
  (forall a b, P a -> P b -> R a b -> R' a b) ->
  Forall P l -> StronglySorted R l -> StronglySorted R' l.
Proof.
  intros HR HP Hs. induction Hs as [|x l Hl IH Hx]; constructor.
  - apply IH. now apply Forall_inv_tail in HP.
  - apply Forall_cons_iff in HP as [Px HP].
    rewrite Forall_forall in *. intros y Hy. apply HR; auto.
Qed.

Lemma value_counts_keys (s : Series) : NoDup (map fst (value_counts s)).
Proof.
  destruct (value_counts_arraylike_counted s) as (Hnd & _).
  eapply Permutation_NoDup; [|exact Hnd].
  apply Permutation_map. symmetry. apply sort_values_descending_perm.
Qed.

Lemma value_counts_covers (s : Series) (v : value) :
  In (Some v) s -> exists c, In (v, c) (value_counts s).
Proof.
  intros H. destruct (value_counts_arraylike_counted s) as (_ & _ & Hk & _).
  apply Hk, In_keys in H as [c H]. exists c.
  eapply Permutation_in; [symmetry; apply sort_values_descending_perm|exact H].
Qed.

(** The counts of a column of numbers, by ascending label: the labels
    strictly increase, every line has the frequency of its label, which is
    positive, and every value of the column has its line. *)
Lemma sort_index_value_counts (s : Series) :
  Forall (fun c => exists y, c = Some (VNum y)) s ->
  StronglySorted (fun a b => exists x y, fst a = VNum x /\ fst b = VNum y /\ x < y)
                 (sort_index (value_counts s)) /\
  (forall k c, In (k, c) (sort_index (value_counts s)) ->
               (exists y, k = VNum y) /\ (0 < c)%nat /\ c = frequency k s) /\
  (forall v, In (Some v) s -> exists c, In (v, c) (sort_index (value_counts s))).
Proof.
  intros Hnum.
  assert (Hperm : Permutation (sort_index (value_counts s)) (value_counts s))
    by apply stable_sort_perm.
  assert (Hent : forall k c, In (k, c) (value_counts s) ->
                   (exists y, k = VNum y) /\ (0 < c)%nat /\ c = frequency k s).
  { intros k c H. destruct (value_counts_entries s k c H) as [-> Hin].
    rewrite Forall_forall in Hnum. destruct (Hnum _ Hin) as [y [= ->]].
    split; [eauto|]. split; auto.
    now apply (count_occ_In cell_eq_dec). }
  split; [|split].
  - set (P := fun e : value * nat => exists y, fst e = VNum y).
    assert (HP : Forall P (value_counts s)).
    { apply Forall_forall. intros [k c] H. apply (Hent k c H). }
    pose proof (stable_sort_sorted
                  (fun a b => value_leb (fst a) (fst b)) P (value_counts s)) as Hs.
    assert (Hsorted : StronglySorted
                        (fun a b => value_leb (fst a) (fst b) = true)
                        (sort_index (value_counts s))).
    { apply Hs; auto.
      - intros a b [x Ha] [y Hb]. rewrite Ha, Hb. simpl.
        rewrite Z.leb_gt, Z.leb_le. lia.
      - intros a b c [x Ha] [y Hb] [z Hc]. rewrite Ha, Hb, Hc. simpl.
        rewrite !Z.leb_le. lia. }
    apply (StronglySorted_distinct fst) in Hsorted.
    + assert (HP' : Forall P (sort_index (value_counts s)))
        by (eapply Permutation_Forall; [symmetry; exact Hperm|exact HP]).
      refine (StronglySorted_weaken_on P _ _ _ _ HP' Hsorted).
      intros a b [x Hx] [y Hy] [Hle Hne].
      exists x, y. repeat split; auto.
      rewrite Hx, Hy in Hle, Hne. simpl in Hle. apply Z.leb_le in Hle.
      assert (x <> y) by congruence. lia.
    + eapply Permutation_NoDup; [|apply value_counts_keys].
      apply Permutation_map. symmetry. exact Hperm.
  - intros k c H. apply Hent. eapply Permutation_in; eauto.
  - intros v H. destruct (value_counts_covers s v H) as [c Hc]. exists c.
    eapply Permutation_in; [symmetry; exact Hperm|exact Hc].
Qed.

End Trends.

(** X7. The counts by year of a filtered view come by ascending year, one
    line per year met in the view: the years strictly increase, every line
    counts the records of the view with its year, at least one, and every
    record of the view is counted in the line of its year. *)
Theorem X7_crashes_per_year (df : DataFrame) (f : FilterSpec) (view : DataFrame) :
  rectangular df = true -> filtered_df df f = Ok view ->
  exists py,
    crashes_per_year view = Ok py /\
    StronglySorted (fun a b => exists x y, fst a = VNum x /\ fst b = VNum y /\ x < y) py /\
    (forall k c, In (k, c) py ->
       (0 < c)%nat /\ c = length (filter (field_is Year k) (records view))) /\
    (forall r, In r (records view) ->
       exists y c, field Year r = Some (Some (VNum y)) /\ In (VNum y, c) py).
Proof.
  intros Hr Hv.
  destruct (view_years df f view Hr Hv) as (Hrv & Hl & ys & Hys & Hlen & Hnum).
  destruct (sort_index_value_counts ys Hnum) as (Hsorted & Hent & Hcov).
  exists (sort_index (value_counts ys)).
  unfold crashes_per_year, getitem. rewrite Hys. simpl.
  split; [reflexivity|]. split; [exact Hsorted|]. split.
  - intros k c H. destruct (Hent k c H) as (_ & Hpos & ->).
    split; auto. now apply frequency_records.
  - intros r Hin. apply In_records in Hin as (i & Hi & ->).
    assert (Hi' : (i < length ys)%nat).
    { apply (Nat.lt_le_trans _ _ _ Hi). apply Nat.eq_le_incl. symmetry. exact Hlen. }
    pose proof (nth_In ys None Hi') as Hin.
    rewrite Forall_forall in Hnum. destruct (Hnum _ Hin) as [y Hy].
    rewrite Hy in Hin. destruct (Hcov _ Hin) as [c Hc].
    exists y, c. split; auto.
    rewrite field_row_at, Hys. simpl. f_equal. exact Hy.
Qed.

Lemma X7_crashes_per_year_witness :
  exists py,
    crashes_per_year view_2000_2010 = Ok py /\
    StronglySorted (fun a b => exists x y, fst a = VNum x /\ fst b = VNum y /\ x < y) py /\
    (forall k c, In (k, c) py ->
       (0 < c)%nat /\ c = length (filter (field_is Year k) (records view_2000_2010))) /\
    (forall r, In r (records view_2000_2010) ->
       exists y c, field Year r = Some (Some (VNum y)) /\ In (VNum y, c) py).
Proof.
  apply (X7_crashes_per_year crashes (sidebar crashes years_2000_2010));
    reflexivity.
Defined.

Section Decades.

Lemma decade_test (y d : Z) :
  d mod 10 = 0 ->
  value_eqb (VNum (y / 10 * 10)) (VNum d) = (d <=? y) && (y <=? d + 9).
Proof.
  intros Hd. apply eq_true_iff_eq.
  rewrite value_eqb_eq, andb_true_iff, !Z.leb_le.
  pose proof (Z.div_mod y 10) as Hy. pose proof (Z.mod_pos_bound y 10) as Hb.
  pose proof (Z.div_mod d 10) as Hd'.
  split.
  - intros [= H]. lia.
  - intros [H1 H2]. f_equal. lia.
Qed.

Lemma decade_frequency (ys : Series) (d : Z) :
  Forall (fun c => exists y, c = Some (VNum y)) ys -> d mod 10 = 0 ->
  frequency (VNum d) (map decade_cell ys) = length (filter (year_cell d (d + 9)) ys).
Proof.
  intros Hnum Hd. rewrite frequency_filter.
  induction Hnum as [|c ys [y ->] Hys IH]; simpl; auto.
  rewrite (decade_test y d Hd).
  destruct ((d <=? y) && (y <=? d + 9)); simpl; now rewrite IH.
Qed.

Lemma decade_cells (ys : Series) :
  Forall (fun c => exists y, c = Some (VNum y)) ys ->
  Forall (fun c => exists d, c = Some (VNum d)) (map decade_cell ys).
Proof.
  induction 1 as [|c ys [y ->] Hys IH]; simpl; constructor; eauto.
Qed.

Lemma In_decade_cells (ys : Series) (d : Z) :
  In (Some (VNum d)) (map decade_cell ys) -> d mod 10 = 0.
Proof.
  intros H. apply in_map_iff in H as ([[y| |]|] & Hc & _); simpl in Hc;
    try discriminate.
  injection Hc as <-. apply Z.mod_mul. lia.
Qed.

End Decades.

(** X8. The counts by decade of a filtered view, when the frame brings no
    [Decade] column: one line per decade met, by ascending decade; the
    label of a line is a multiple of 10 and its count is the number of
    records of the view whose year lies in the ten years from it, at least
    one. *)
Theorem X8_crashes_by_decade (df : DataFrame) (f : FilterSpec) (view : DataFrame) :
  rectangular df = true -> has_column Decade df = false ->
  filtered_df df f = Ok view ->
  exists view' pd,
    add_decade view = Ok view' /\
    crashes_by_decade view' = Ok pd /\
    StronglySorted (fun a b => exists x y, fst a = VNum x /\ fst b = VNum y /\ x < y) pd /\
    forall k c, In (k, c) pd ->
      exists d, k = VNum d /\ d mod 10 = 0 /\ (0 < c)%nat /\
                c = length (filter (year_in_range d (d + 9)) (records view)).
Proof.
  intros Hr Hd Hv.
  destruct (view_years df f view Hr Hv) as (Hrv & Hl & ys & Hys & Hlen & Hnum).
  assert (Hdv : has_column Decade view = false)
    by now rewrite (has_column_labels Decade view df Hl).
  destruct (sort_index_value_counts _ (decade_cells ys Hnum)) as (Hsorted & Hent & _).
  exists (setitem Decade (map decade_cell ys) view),
         (sort_index (value_counts (map decade_cell ys))).
  unfold add_decade, crashes_by_decade, getitem. rewrite Hdv, Hys. simpl.
  rewrite (decade_of_numbers ys Hnum). simpl.
  rewrite get_col_setitem_same. simpl.
  split; [reflexivity|]. split; [reflexivity|]. split; [exact Hsorted|].
  intros k c H. destruct (Hent k c H) as ([d ->] & Hpos & ->).
  assert (Hmod : d mod 10 = 0).
  { apply (In_decade_cells ys). apply (count_occ_In cell_eq_dec). exact Hpos. }
  exists d. repeat split; auto.
  rewrite (decade_frequency ys d Hnum Hmod).
  apply length_filter_masks.
  rewrite (map_ext (year_in_range d (d + 9))
                   (fun r => match field Year r with
                             | Some c => year_cell d (d + 9) c
                             | None => false
                             end) (year_in_range_field d (d + 9))).
  apply (mask_of_column (fun oc => match oc with
                                   | Some c => year_cell d (d + 9) c
                                   | None => false
                                   end) Year view ys Hrv Hys).
Qed.

Lemma X8_crashes_by_decade_witness :
  exists view' pd,
    add_decade view_2000_2010 = Ok view' /\
    crashes_by_decade view' = Ok pd /\
    StronglySorted (fun a b => exists x y, fst a = VNum x /\ fst b = VNum y /\ x < y) pd /\
    forall k c, In (k, c) pd ->
      exists d, k = VNum d /\ d mod 10 = 0 /\ (0 < c)%nat /\
                c = length (filter (year_in_range d (d + 9)) (records view_2000_2010)).
Proof.
  apply (X8_crashes_by_decade crashes (sidebar crashes years_2000_2010));
    reflexivity.
Defined.

(** ** The decade column, once more *)

(** X10. Adding the decade column is done once: when it returns, a second
    call returns the same view; every other column is as it was; and a view
    that already has a [Decade] column is returned as it is, whatever the
    column holds. *)
Theorem X10_add_decade_once (view view' : DataFrame) :
  add_decade view = Ok view' ->
  add_decade view' = Ok view' /\
  has_column Decade view' = true /\
  (forall label, String.eqb label Decade = false ->
                 get_col label view' = get_col label view) /\
  (has_column Decade view = true -> view' = view).
Proof.
  unfold add_decade at 1.
  destruct (has_column Decade view) eqn:E.
  - intros [= <-]. unfold add_decade. rewrite E. auto.
  - destruct (getitem Year view) as [ys|e]; simpl; [|discriminate].
    destruct (mapM decade_of ys) as [ds|e]; simpl; [|discriminate].
    intros [= <-].
    assert (H : has_column Decade (setitem Decade ds view) = true).
    { rewrite has_column_setitem. now rewrite String.eqb_refl, orb_true_r. }
    unfold add_decade. rewrite H. repeat split; auto.
    + intros label Hne. now apply get_col_setitem_other.
    + discriminate.
Qed.

Lemma X10_add_decade_once_witness :
  add_decade own_decade = Ok own_decade /\
  has_column Decade own_decade = true /\
  (forall label, String.eqb label Decade = false ->
                 get_col label own_decade = get_col label own_decade) /\
  (has_column Decade own_decade = true -> own_decade = own_decade).
Proof.
  apply (X10_add_decade_once own_decade own_decade). reflexivity.
Defined.

(** ** The data sample *)

Section DataSample.

Lemma firstn_seq (n : nat) : forall start len,
  firstn n (seq start len) = seq start (Nat.min n len).
Proof.
  induction n as [|n IH]; intros start [|len]; simpl; auto.
  now rewrite IH.
Qed.

Lemma len_df_head (n : nat) (df : DataFrame) :
  len (df_head n df) = Nat.min n (len df).
Proof.
  destruct df as [|[l s] df]; simpl; [now rewrite Nat.min_0_r|].
  apply length_firstn.
Qed.

End DataSample.

(** X11. The data sample holds the first hundred records of the view, in
    their order and with every column, and the whole view when it has
    fewer. *)
Theorem X11_data_sample (view : DataFrame) :
  map fst (data_sample view) = map fst view /\
  len (data_sample view) = Nat.min 100 (len view) /\
  records (data_sample view) = firstn 100 (records view) /\
  (rectangular view = true -> rectangular (data_sample view) = true) /\
  (rectangular view = true -> (len view <= 100)%nat -> data_sample view = view).
Proof.
  unfold data_sample. generalize 100%nat as n. intros n.
  assert (Hrec : records (df_head n view) = firstn n (records view)).
  { unfold records. rewrite len_df_head, firstn_map, firstn_seq.
    apply map_ext_in. intros i Hi. apply in_seq in Hi.
    unfold row_at, df_head. rewrite map_map. apply map_ext. intros [l s]. simpl.
    rewrite nth_firstn.
    destruct (Nat.ltb_spec i n); [reflexivity|lia]. }
  assert (Hlab : map fst (df_head n view) = map fst view).
  { unfold df_head. now rewrite map_map. }
  assert (Hrect : rectangular view = true -> rectangular (df_head n view) = true).
  { rewrite !rectangular_spec. intros H c Hc. rewrite len_df_head.
    unfold df_head in Hc. apply in_map_iff in Hc as ([l s] & <- & Hin). simpl.
    rewrite length_firstn. f_equal. exact (H _ Hin). }
  split; [exact Hlab|]. split; [apply len_df_head|]. split; [exact Hrec|].
  split; [exact Hrect|].
  intros Hr Hle. apply frame_ext; auto.
  rewrite Hrec. apply firstn_all2. now rewrite length_records.
Qed.

(** ** Bounds on the table of missing values *)

Section MissingBounds.

Lemma round_half_even_between (a b : Z) (q : Q) :
  (inject_Z a <= q <= inject_Z b)%Q -> a <= round_half_even q <= b.
Proof.
  intros [Ha Hb]. unfold round_half_even.
  pose proof (Qfloor_resp_le _ _ Ha) as Hfa. rewrite Qfloor_Z in Hfa.
  pose proof (Qfloor_resp_le _ _ Hb) as Hfb. rewrite Qfloor_Z in Hfb.
  pose proof (Qfloor_le q) as Hlo.
  assert (Hup : (inject_Z (Qfloor q) < q)%Q -> Qfloor q + 1 <= b).
  { intros Hlt. assert (H : (inject_Z (Qfloor q) < inject_Z b)%Q) by lra.
    rewrite <- Zlt_Qlt in H. lia. }
  destruct (Qcompare_spec (q - inject_Z (Qfloor q)) (1 # 2)) as [He|Hl|Hg].
  - destruct (Z.even (Qfloor q)); [lia|]. split; [lia|]. apply Hup. lra.
  - lia.
  - split; [lia|]. apply Hup. lra.
Qed.

Lemma round2_range (q : Q) : (0 <= q <= 100)%Q -> (0 <= round2 q <= 100)%Q.
Proof.
  intros [H0 H1]. unfold round2.
  destruct (round_half_even_between 0 10000 (q * 100)) as [Ha Hb].
  { change (inject_Z 0) with 0%Q. change (inject_Z 10000) with 10000%Q.
    split; lra. }
  rewrite Zle_Qle in Ha, Hb.
  unfold Qdiv. change (/ 100)%Q with (1 # 100)%Q.
  change (inject_Z 0) with 0%Q in Ha. change (inject_Z 10000) with 10000%Q in Hb.
  split; lra.
Qed.

Lemma exact_percentage_range (count n : nat) :
  (count <= n)%nat -> (0 < n)%nat -> (0 <= exact_percentage count n <= 100)%Q.
Proof.
  intros Hle Hpos. unfold exact_percentage.
  assert (Hn : (0 < inject_Z (Z.of_nat n))%Q).
  { change 0%Q with (inject_Z 0). rewrite <- Zlt_Qlt. lia. }
  assert (Hc : (0 <= inject_Z (Z.of_nat count))%Q).
  { change 0%Q with (inject_Z 0). rewrite <- Zle_Qle. lia. }
  assert (Hcn : (inject_Z (Z.of_nat count) <= inject_Z (Z.of_nat n))%Q).
  { rewrite <- Zle_Qle. lia. }
  assert (H0 : (0 <= inject_Z (Z.of_nat count) / inject_Z (Z.of_nat n))%Q).
  { apply Qle_shift_div_l; [exact Hn|lra]. }
  assert (H1 : (inject_Z (Z.of_nat count) / inject_Z (Z.of_nat n) <= 1)%Q).
  { apply Qle_shift_div_r; [exact Hn|lra]. }
  split; lra.
Qed.

Lemma columns_with_nulls_total (n : nat) (view : DataFrame) :
  (forall c, In c view -> length (snd c) = n) ->
  (total_count (columns_with_nulls view) <= length view * n)%nat.
Proof.
  unfold total_count, columns_with_nulls.
  induction view as [|[l s] view IH]; intros H; simpl; auto.
  assert (IH' : (list_sum (map snd
                   (filter (fun e : string * nat => (0 <? snd e)%nat)
                      (map (fun c : string * Series => (fst c, null_count (snd c)))
                           view))) <= length view * n)%nat).
  { apply IH. intros c Hc. apply H. now right. }
  pose proof (null_count_le s) as Hs.
  pose proof (H (l, s) (or_introl eq_refl)) as Hlen. simpl in Hlen.
  destruct (0 <? null_count s)%nat; simpl; lia.
Qed.

End MissingBounds.

(** X12. Bounds of the table of missing values: it has at most one line
    per column; every line counts at least one and at most as many nulls as
    the view has rows, its percentage is a number between 0 and 100, and the
    counts together are at most rows times columns. *)
Theorem X12_missing_bounds (view : DataFrame) (rows : list MissingRow) :
  rectangular view = true -> missing_df view = Some rows ->
  (length rows <= length view)%nat /\
  Forall (fun r => (0 < Missing_Count r <= len view)%nat /\
                   exists p, Percentage r = Num p /\ (0 <= p <= 100)%Q) rows /\
  (list_sum (map Missing_Count rows) <= length view * len view)%nat.
Proof.
  intros Hr Hrows.
  pose proof (missing_values_perm view) as Hperm.
  unfold missing_df in Hrows.
  destruct (0 <? length (missing_values view))%nat; [|discriminate].
  injection Hrows as <-.
  assert (Hin : forall e, In e (missing_values view) ->
                          (0 < snd e <= len view)%nat).
  { intros e He. apply (Permutation_in _ Hperm) in He.
    apply In_columns_with_nulls in He as (c & Hc & -> & Hpos). simpl in *.
    split; auto. rewrite rectangular_spec in Hr. rewrite <- (Hr c Hc).
    apply null_count_le. }
  split; [|split].
  - rewrite length_map, (Permutation_length Hperm).
    unfold columns_with_nulls.
    etransitivity; [apply filter_length_le|]. now rewrite length_map.
  - apply Forall_forall. intros r Hrin.
    apply in_map_iff in Hrin as (e & <- & He). simpl.
    destruct (Hin e He) as [Hpos Hle]. split; [lia|].
    unfold percentage. destruct (Nat.eqb_spec (len view) 0) as [Hz|Hnz]; [lia|].
    eexists. split; [reflexivity|].
    apply round2_range. apply exact_percentage_range; lia.
  - rewrite map_map. simpl.
    change (list_sum (map (fun e : string * nat => snd e) (missing_values view)))
      with (total_count (missing_values view)).
    rewrite (total_count_perm _ _ Hperm).
    apply columns_with_nulls_total. now apply rectangular_spec.
Qed.

Lemma X12_missing_bounds_witness :
  (length [ {| Column := Fatalities; Missing_Count := 1;
               Percentage := percentage 1 3 |} ] <= length three_crashes)%nat /\
  Forall (fun r => (0 < Missing_Count r <= len three_crashes)%nat /\
                   exists p, Percentage r = Num p /\ (0 <= p <= 100)%Q)
         [ {| Column := Fatalities; Missing_Count := 1;
              Percentage := percentage 1 3 |} ] /\
  (list_sum (map Missing_Count
               [ {| Column := Fatalities; Missing_Count := 1;
                    Percentage := percentage 1 3 |} ])
   <= length three_crashes * len three_crashes)%nat.
Proof.
  apply (X12_missing_bounds three_crashes); reflexivity.
Defined.

(** ** The options of the select boxes *)

Section SelectOptions.

Lemma unique_from (l : list value) : forall seen,
  NoDup seen ->
  NoDup (fold_left (fun seen v => if in_dec value_eq_dec v seen
                                  then seen else seen ++ [v]) l seen) /\
  forall v, In v (fold_left (fun seen v => if in_dec value_eq_dec v seen
                                           then seen else seen ++ [v]) l seen)
            <-> In v seen \/ In v l.
Proof.
  induction l as [|x l IH]; intros seen Hnd; simpl.
  - split; auto. intros v. tauto.
  - destruct (in_dec value_eq_dec x seen) as [Hin|Hnin].
    + destruct (IH seen Hnd) as [H1 H2]. split; auto.
      intros v. rewrite H2. split; [tauto|].
      intros [H|[<-|H]]; auto.
    + assert (Hnd' : NoDup (seen ++ [x])).
      { apply NoDup_app; auto.
        - repeat constructor. simpl. tauto.
        - intros a Ha [<-|[]]. contradiction. }
      destruct (IH _ Hnd') as [H1 H2]. split; auto.
      intros v. rewrite H2, in_app_iff. simpl. tauto.
Qed.

Lemma unique_spec (l : list value) :
  NoDup (unique l) /\ forall v, In v (unique l) <-> In v l.
Proof.
  destruct (unique_from l [] (NoDup_nil _)) as [H1 H2]. split; auto.
  intros v. unfold unique. rewrite H2. simpl. tauto.
Qed.

Lemma ascii_compare_refl (a : ascii) : Ascii.compare a a = Eq.
Proof. unfold Ascii.compare. apply N.compare_refl. Qed.

Lemma ascii_compare_lt_trans (a b c : ascii) :
  Ascii.compare a b = Lt -> Ascii.compare b c = Lt -> Ascii.compare a c = Lt.
Proof.
  unfold Ascii.compare. rewrite !N.compare_lt_iff. apply N.lt_trans.
Qed.

Lemma string_leb_trans (a : string) : forall b c,
  String.leb a b = true -> String.leb b c = true -> String.leb a c = true.
Proof.
  unfold String.leb.
  induction a as [|x a IH]; intros [|y b] [|z c]; simpl; auto; try discriminate.
  destruct (Ascii.compare x y) eqn:Exy; try discriminate;
    destruct (Ascii.compare y z) eqn:Eyz; try discriminate; intros Hab Hbc.
  - apply Ascii.compare_eq_iff in Exy, Eyz. subst.
    rewrite ascii_compare_refl. now apply (IH b c).
  - apply Ascii.compare_eq_iff in Exy. subst. now rewrite Eyz.
  - apply Ascii.compare_eq_iff in Eyz. subst. now rewrite Exy.
  - now rewrite (ascii_compare_lt_trans x y z Exy Eyz).
Qed.

Lemma same_kind_text (l : list value) :
  Forall (fun v => exists t, v = VStr t) l -> same_kind l = true.
Proof.
  intros H. destruct l as [|v l]; auto. simpl.
  apply Forall_cons_iff in H as [[t ->] H]. apply forallb_forall.
  rewrite Forall_forall in H. intros w Hw. now destruct (H w Hw) as [u ->].
Qed.

Lemma stable_sort_text (l : list value) :
  Forall (fun v => exists t, v = VStr t) l ->
  StronglySorted (fun a b => value_leb a b = true) (stable_sort value_leb l).
Proof.
  apply stable_sort_sorted.
  - intros a b [s ->] [t ->]. simpl. intros H.
    destruct (String.leb_total s t) as [H'|H']; congruence.
  - intros a b c [s ->] [t ->] [u ->]. simpl. apply string_leb_trans.
Qed.

(** The options of a box over a column of text. *)
Lemma select_options_text (df : DataFrame) (label : string) (s : Series) :
  get_col label df = Some s -> forallb is_text s = true ->
  exists opts,
    select_options df label = Ok (All :: opts) /\
    NoDup opts /\
    (forall v, In v opts <-> In (Some v) s) /\
    StronglySorted (fun a b => value_leb a b = true) opts.
Proof.
  intros Hs Htext.
  destruct (unique_spec (dropna s)) as [Hnd Hin].
  assert (Ht : Forall (fun v => exists t, v = VStr t) (unique (dropna s))).
  { apply Forall_forall. intros v Hv. apply Hin, In_dropna in Hv.
    rewrite forallb_forall in Htext. specialize (Htext _ Hv).
    destruct v; try discriminate. eauto. }
  exists (stable_sort value_leb (unique (dropna s))).
  unfold select_options, getitem, py_sorted. rewrite Hs. simpl.
  rewrite (same_kind_text _ Ht). simpl.
  pose proof (stable_sort_perm value_leb (unique (dropna s))) as Hperm.
  split; [reflexivity|]. split; [|split].
  - eapply Permutation_NoDup; [symmetry; exact Hperm|exact Hnd].
  - intros v. rewrite <- In_dropna, <- Hin. split; apply Permutation_in; auto.
    now symmetry.
  - now apply stable_sort_text.
Qed.

End SelectOptions.

(** X13. The options of the two select boxes over columns of text:
    ['All'] first, then every distinct non-null value of the column exactly
    once, in ascending order; nothing is offered that no record holds. *)
Theorem X13_select_boxes (df : DataFrame) (s : Series) :
  forallb is_text s = true ->
  (get_col Operator df = Some s ->
   exists opts, operators df = Ok (Some (All :: opts)) /\
     NoDup opts /\ (forall v, In v opts <-> In (Some v) s) /\
     StronglySorted (fun a b => value_leb a b = true) opts) /\
  (has_column Country df || has_column Location df = true ->
   get_col (location_col df) df = Some s ->
   exists opts, locations df = Ok (Some (All :: opts)) /\
     NoDup opts /\ (forall v, In v opts <-> In (Some v) s) /\
     StronglySorted (fun a b => value_leb a b = true) opts).
Proof.
  intros Htext. split.
  - intros Hs. destruct (select_options_text df Operator s Hs Htext)
      as (opts & Ho & Hrest).
    exists opts. split; [|exact Hrest]. unfold operators.
    rewrite (proj2 (has_column_get_col Operator df)) by eauto.
    now rewrite Ho.
  - intros Hloc Hs. destruct (select_options_text df _ s Hs Htext)
      as (opts & Ho & Hrest).
    exists opts. split; [|exact Hrest]. unfold locations.
    rewrite Hloc. now rewrite Ho.
Qed.

Lemma X13_select_boxes_witness :
  exists opts, operators crashes = Ok (Some (All :: opts)) /\
    NoDup opts /\
    (forall v, In v opts <->
               In (Some v) [Some (VStr "Aeroflot"); Some (VStr "Pan Am");
                            Some (VStr "Aeroflot")]) /\
    StronglySorted (fun a b => value_leb a b = true) opts.
Proof.
  apply (proj1 (X13_select_boxes crashes
                  [Some (VStr "Aeroflot"); Some (VStr "Pan Am"); Some (VStr "Aeroflot")]
                  eq_refl)).
  reflexivity.
Defined.

(** ** The rank tables *)

Section RankTable.

Lemma rank_table_snd {A : Type} (l : list A) : forall k,
  map snd (combine (seq k (length l)) l) = l.
Proof.
  induction l as [|x l IH]; intros k; simpl; auto. now rewrite IH.
Qed.

Lemma rank_table_fst {A : Type} (l : list A) : forall k,
  map fst (combine (seq k (length l)) l) = seq k (length l).
Proof.
  induction l as [|x l IH]; intros k; simpl; auto. now rewrite IH.
Qed.

Lemma rank_table_order {A : Type} (R : A -> A -> Prop) (l : list A) :
  StronglySorted R l ->
  forall k r1 e1 r2 e2,
    In (r1, e1) (combine (seq k (length l)) l) ->
    In (r2, e2) (combine (seq k (length l)) l) ->
    (r1 < r2)%nat -> R e1 e2.
Proof.
  induction 1 as [|x l Hl IH Hx]; intros k r1 e1 r2 e2; simpl; [tauto|].
  intros [[= <- <-]|H1] [[= <- <-]|H2] Hlt.
  - lia.
  - rewrite Forall_forall in Hx. apply Hx. eapply in_combine_r; eauto.
  - apply in_combine_l, in_seq in H1. lia.
  - eapply IH; eauto.
Qed.

End RankTable.

(** X14. The rank table of the operators: one line per line of the
    top-15 ranking, in its order, with the ranks 1, 2, 3 and so on; of two
    lines the one of lower rank never has fewer crashes. *)
Theorem X14_operator_ranks (view : DataFrame) (s : Series) :
  get_col Operator view = Some s ->
  exists top tbl,
    top_operators 15 view = Ok (Some top) /\
    operator_df view = Ok (Some tbl) /\
    map snd tbl = top /\
    map fst tbl = seq 1 (length top) /\
    forall r1 e1 r2 e2, In (r1, e1) tbl -> In (r2, e2) tbl -> (r1 < r2)%nat ->
      (snd e2 <= snd e1)%nat.
Proof.
  intros Hs.
  assert (Ht : top_operators 15 view = Ok (Some (head 15 (value_counts s)))).
  { unfold top_operators, top_categories, getitem.
    rewrite (proj2 (has_column_get_col Operator view)) by eauto.
    now rewrite Hs. }
  assert (Hsorted : StronglySorted (fun a b : value * nat => (snd b <= snd a)%nat)
                                   (head 15 (value_counts s))).
  { apply StronglySorted_firstn. apply sort_values_descending_by_count. }
  revert Ht Hsorted. generalize (head 15 (value_counts s)) as top.
  intros top Ht Hsorted.
  exists top, (rank_table top).
  unfold operator_df. rewrite Ht. unfold bind, option_map.
  split; [reflexivity|]. split; [reflexivity|].
  split; [apply rank_table_snd|]. split; [apply rank_table_fst|].
  intros r1 e1 r2 e2 H1 H2 Hlt.
  exact (rank_table_order _ top Hsorted 1%nat r1 e1 r2 e2 H1 H2 Hlt).
Qed.

Lemma X14_operator_ranks_witness :
  exists top tbl,
    top_operators 15 crashes = Ok (Some top) /\
    operator_df crashes = Ok (Some tbl) /\
    map snd tbl = top /\
    map fst tbl = seq 1 (length top) /\
    forall r1 e1 r2 e2, In (r1, e1) tbl -> In (r2, e2) tbl -> (r1 < r2)%nat ->
      (snd e2 <= snd e1)%nat.
Proof.
  apply (X14_operator_ranks crashes
           [Some (VStr "Aeroflot"); Some (VStr "Pan Am"); Some (VStr "Aeroflot")]).
  reflexivity.
Defined.
